(** * A relational model of [lwe/backends/api/orm.py]

    The module under study is a thin data-access layer: three mapped
    tables ([user], [conversation], [message]) and a [Manager] whose
    methods build queries on a session, mutate mapped objects, and
    commit.  We embed

    - the rows as records, one module per mapped class, a nullable
      column being an [option];
    - the session as a pair of table sets (the durable database and the
      view of the open transaction) together with a commit counter;
    - the query builder as a record of clauses evaluated by [Query.all];
    - every [Manager] method as a computation in a state-and-exception
      monad over the session.

    Integers are [Z] (Python [int]); [limit] and [offset] are counts and
    are taken in [nat]; a [datetime] is a point on an integer time line
    and [datetime.datetime.now()] is an explicit argument [now].

    A mapped object is a record of its column values.  The objects a
    session holds are the rows of its tables, so an object counts as
    persistent in a session exactly when it is one of those rows; any other
    record stands for an instance the session does not hold (transient or
    detached). *)

From Stdlib Require Import List Bool ZArith Lia String Ascii.
From Stdlib Require Import Sorted Permutation OrderedTypeEx.
Import ListNotations.

Set Warnings "-register-all".
Local Open Scope Z_scope.

(** ** Values *)

Definition datetime := Z.

(** The Python values a JSON column can hold. *)
Inductive PyValue : Type :=
| PyNone
| PyBool (b : bool)
| PyInt (n : Z)
| PyStr (s : string)
| PyList (items : list PyValue)
| PyDict (items : list (string * PyValue)).

(** Python truth value, as used by [x or y] and by [if x:]. *)
Definition truthy (v : PyValue) : bool :=
  match v with
  | PyNone => false
  | PyBool b => b
  | PyInt n => negb (n =? 0)
  | PyStr s => negb (String.eqb s EmptyString)
  | PyList items => match items with [] => false | _ => true end
  | PyDict items => match items with [] => false | _ => true end
  end.

(** [a or b] on values. *)
Definition py_or (a b : PyValue) : PyValue := if truthy a then a else b.

(** An INTEGER the driver can bind: a 64-bit signed integer. *)
Definition in_int64 (n : Z) : bool := (- 2 ^ 63 <=? n) && (n <=? 2 ^ 63 - 1).

(** Equality tests, used to tell whether an object is one of the rows a
    session holds and whether a transaction has anything pending. *)
Definition option_eqb {A : Type} (eqb : A -> A -> bool) (a b : option A)
  : bool :=
  match a, b with
  | Some x, Some y => eqb x y
  | None, None => true
  | _, _ => false
  end.

Fixpoint list_eqb {A : Type} (eqb : A -> A -> bool) (l1 l2 : list A) : bool :=
  match l1, l2 with
  | [], [] => true
  | x :: l1', y :: l2' => eqb x y && list_eqb eqb l1' l2'
  | _, _ => false
  end.

Fixpoint PyValue_eqb (a b : PyValue) {struct a} : bool :=
  match a, b with
  | PyNone, PyNone => true
  | PyBool x, PyBool y => Bool.eqb x y
  | PyInt x, PyInt y => x =? y
  | PyStr x, PyStr y => String.eqb x y
  | PyList xs, PyList ys =>
      (fix items_eqb (xs ys : list PyValue) {struct xs} : bool :=
         match xs, ys with
         | [], [] => true
         | x :: xs', y :: ys' => PyValue_eqb x y && items_eqb xs' ys'
         | _, _ => false
         end) xs ys
  | PyDict xs, PyDict ys =>
      (fix items_eqb (xs ys : list (string * PyValue)) {struct xs} : bool :=
         match xs, ys with
         | [], [] => true
         | (k, x) :: xs', (l, y) :: ys' =>
             String.eqb k l && PyValue_eqb x y && items_eqb xs' ys'
         | _, _ => false
         end) xs ys
  | _, _ => false
  end.

(** ** Exceptions and results *)

Inductive exn : Type :=
| InvalidRequestError   (* sqlalchemy.exc: clause added after LIMIT/OFFSET,
                           delete of an instance that is not persisted *)
| IntegrityError        (* sqlalchemy.exc: a constraint rejected the flush *)
| AttributeError        (* setattr on None *)
| TypeError             (* a keyword given twice in a call *)
| OverflowError.        (* an integer the driver cannot bind *)

Inductive result (A : Type) : Type :=
| Ok (a : A)
| Raise (e : exn).

Arguments Ok {A} a.
Arguments Raise {A} e.

(** ** Mapped classes *)

Module User.

Record t : Type := mk {
  id : Z;
  username : string;
  password : option string;
  email : option string;
  default_preset : string;
  created_time : datetime;
  last_login_time : option datetime;
  preferences : PyValue
}.

(** A keyword argument of [orm_edit_user]: a column name with a value of
    the column's type. *)
Inductive column : Type :=
| c_id | c_username | c_password | c_email | c_default_preset
| c_created_time | c_last_login_time | c_preferences.

Inductive kwarg : Type :=
| kw_id (v : Z)
| kw_username (v : string)
| kw_password (v : option string)
| kw_email (v : option string)
| kw_default_preset (v : string)
| kw_created_time (v : datetime)
| kw_last_login_time (v : option datetime)
| kw_preferences (v : PyValue).

Definition key (k : kwarg) : column :=
  match k with
  | kw_id _ => c_id
  | kw_username _ => c_username
  | kw_password _ => c_password
  | kw_email _ => c_email
  | kw_default_preset _ => c_default_preset
  | kw_created_time _ => c_created_time
  | kw_last_login_time _ => c_last_login_time
  | kw_preferences _ => c_preferences
  end.

(** [setattr(user, key, value)] *)
Definition setattr (u : t) (k : kwarg) : t :=
  match k with
  | kw_id v =>
      mk v (username u) (password u) (email u) (default_preset u)
         (created_time u) (last_login_time u) (preferences u)
  | kw_username v =>
      mk (id u) v (password u) (email u) (default_preset u)
         (created_time u) (last_login_time u) (preferences u)
  | kw_password v =>
      mk (id u) (username u) v (email u) (default_preset u)
         (created_time u) (last_login_time u) (preferences u)
  | kw_email v =>
      mk (id u) (username u) (password u) v (default_preset u)
         (created_time u) (last_login_time u) (preferences u)
  | kw_default_preset v =>
      mk (id u) (username u) (password u) (email u) v
         (created_time u) (last_login_time u) (preferences u)
  | kw_created_time v =>
      mk (id u) (username u) (password u) (email u) (default_preset u)
         v (last_login_time u) (preferences u)
  | kw_last_login_time v =>
      mk (id u) (username u) (password u) (email u) (default_preset u)
         (created_time u) v (preferences u)
  | kw_preferences v =>
      mk (id u) (username u) (password u) (email u) (default_preset u)
         (created_time u) (last_login_time u) v
  end.

(** [getattr(user, key)], tagged with the column it was read from. *)
Definition getattr (c : column) (u : t) : kwarg :=
  match c with
  | c_id => kw_id (id u)
  | c_username => kw_username (username u)
  | c_password => kw_password (password u)
  | c_email => kw_email (email u)
  | c_default_preset => kw_default_preset (default_preset u)
  | c_created_time => kw_created_time (created_time u)
  | c_last_login_time => kw_last_login_time (last_login_time u)
  | c_preferences => kw_preferences (preferences u)
  end.

Definition eqb (u v : t) : bool :=
  (id u =? id v)
  && String.eqb (username u) (username v)
  && option_eqb String.eqb (password u) (password v)
  && option_eqb String.eqb (email u) (email v)
  && String.eqb (default_preset u) (default_preset v)
  && (created_time u =? created_time v)
  && option_eqb Z.eqb (last_login_time u) (last_login_time v)
  && PyValue_eqb (preferences u) (preferences v).

(** The value of a keyword can be bound as a statement parameter. *)
Definition bindable (k : kwarg) : bool :=
  match k with
  | kw_id v => in_int64 v
  | _ => true
  end.

End User.

Module Conversation.

Record t : Type := mk {
  id : Z;
  user_id : Z;
  title : option string;
  created_time : datetime;
  updated_time : datetime;
  hidden : bool
}.

Inductive column : Type :=
| c_id | c_user_id | c_title | c_created_time | c_updated_time | c_hidden.

Inductive kwarg : Type :=
| kw_id (v : Z)
| kw_user_id (v : Z)
| kw_title (v : option string)
| kw_created_time (v : datetime)
| kw_updated_time (v : datetime)
| kw_hidden (v : bool).

Definition key (k : kwarg) : column :=
  match k with
  | kw_id _ => c_id
  | kw_user_id _ => c_user_id
  | kw_title _ => c_title
  | kw_created_time _ => c_created_time
  | kw_updated_time _ => c_updated_time
  | kw_hidden _ => c_hidden
  end.

Definition setattr (c : t) (k : kwarg) : t :=
  match k with
  | kw_id v =>
      mk v (user_id c) (title c) (created_time c) (updated_time c) (hidden c)
  | kw_user_id v =>
      mk (id c) v (title c) (created_time c) (updated_time c) (hidden c)
  | kw_title v =>
      mk (id c) (user_id c) v (created_time c) (updated_time c) (hidden c)
  | kw_created_time v =>
      mk (id c) (user_id c) (title c) v (updated_time c) (hidden c)
  | kw_updated_time v =>
      mk (id c) (user_id c) (title c) (created_time c) v (hidden c)
  | kw_hidden v =>
      mk (id c) (user_id c) (title c) (created_time c) (updated_time c) v
  end.

Definition getattr (col : column) (c : t) : kwarg :=
  match col with
  | c_id => kw_id (id c)
  | c_user_id => kw_user_id (user_id c)
  | c_title => kw_title (title c)
  | c_created_time => kw_created_time (created_time c)
  | c_updated_time => kw_updated_time (updated_time c)
  | c_hidden => kw_hidden (hidden c)
  end.

Definition eqb (c d : t) : bool :=
  (id c =? id d)
  && (user_id c =? user_id d)
  && option_eqb String.eqb (title c) (title d)
  && (created_time c =? created_time d)
  && (updated_time c =? updated_time d)
  && Bool.eqb (hidden c) (hidden d).

Definition bindable (k : kwarg) : bool :=
  match k with
  | kw_id v => in_int64 v
  | kw_user_id v => in_int64 v
  | _ => true
  end.

End Conversation.

Module Message.

Record t : Type := mk {
  id : Z;
  conversation_id : Z;
  role : string;
  message : string;
  message_type : string;
  message_metadata : option string;
  model : string;
  provider : string;
  preset : string;
  created_time : datetime
}.

Inductive column : Type :=
| c_id | c_conversation_id | c_role | c_message | c_message_type
| c_message_metadata | c_model | c_provider | c_preset | c_created_time.

Inductive kwarg : Type :=
| kw_id (v : Z)
| kw_conversation_id (v : Z)
| kw_role (v : string)
| kw_message (v : string)
| kw_message_type (v : string)
| kw_message_metadata (v : option string)
| kw_model (v : string)
| kw_provider (v : string)
| kw_preset (v : string)
| kw_created_time (v : datetime).

Definition key (k : kwarg) : column :=
  match k with
  | kw_id _ => c_id
  | kw_conversation_id _ => c_conversation_id
  | kw_role _ => c_role
  | kw_message _ => c_message
  | kw_message_type _ => c_message_type
  | kw_message_metadata _ => c_message_metadata
  | kw_model _ => c_model
  | kw_provider _ => c_provider
  | kw_preset _ => c_preset
  | kw_created_time _ => c_created_time
  end.

Definition setattr (m : t) (k : kwarg) : t :=
  match k with
  | kw_id v =>
      mk v (conversation_id m) (role m) (message m) (message_type m)
         (message_metadata m) (model m) (provider m) (preset m)
         (created_time m)
  | kw_conversation_id v =>
      mk (id m) v (role m) (message m) (message_type m)
         (message_metadata m) (model m) (provider m) (preset m)
         (created_time m)
  | kw_role v =>
      mk (id m) (conversation_id m) v (message m) (message_type m)
         (message_metadata m) (model m) (provider m) (preset m)
         (created_time m)
  | kw_message v =>
      mk (id m) (conversation_id m) (role m) v (message_type m)
         (message_metadata m) (model m) (provider m) (preset m)
         (created_time m)
  | kw_message_type v =>
      mk (id m) (conversation_id m) (role m) (message m) v
         (message_metadata m) (model m) (provider m) (preset m)
         (created_time m)
  | kw_message_metadata v =>
      mk (id m) (conversation_id m) (role m) (message m) (message_type m)
         v (model m) (provider m) (preset m) (created_time m)
  | kw_model v =>
      mk (id m) (conversation_id m) (role m) (message m) (message_type m)
         (message_metadata m) v (provider m) (preset m) (created_time m)
  | kw_provider v =>
      mk (id m) (conversation_id m) (role m) (message m) (message_type m)
         (message_metadata m) (model m) v (preset m) (created_time m)
  | kw_preset v =>
      mk (id m) (conversation_id m) (role m) (message m) (message_type m)
         (message_metadata m) (model m) (provider m) v (created_time m)
  | kw_created_time v =>
      mk (id m) (conversation_id m) (role m) (message m) (message_type m)
         (message_metadata m) (model m) (provider m) (preset m) v
  end.

Definition getattr (col : column) (m : t) : kwarg :=
  match col with
  | c_id => kw_id (id m)
  | c_conversation_id => kw_conversation_id (conversation_id m)
  | c_role => kw_role (role m)
  | c_message => kw_message (message m)
  | c_message_type => kw_message_type (message_type m)
  | c_message_metadata => kw_message_metadata (message_metadata m)
  | c_model => kw_model (model m)
  | c_provider => kw_provider (provider m)
  | c_preset => kw_preset (preset m)
  | c_created_time => kw_created_time (created_time m)
  end.

Definition eqb (m n : t) : bool :=
  (id m =? id n)
  && (conversation_id m =? conversation_id n)
  && String.eqb (role m) (role n)
  && String.eqb (message m) (message n)
  && String.eqb (message_type m) (message_type n)
  && option_eqb String.eqb (message_metadata m) (message_metadata n)
  && String.eqb (model m) (model n)
  && String.eqb (provider m) (provider n)
  && String.eqb (preset m) (preset n)
  && (created_time m =? created_time n).

Definition bindable (k : kwarg) : bool :=
  match k with
  | kw_id v => in_int64 v
  | kw_conversation_id v => in_int64 v
  | _ => true
  end.

(** The keyword [message], which is also the name of the first parameter
    of [orm_edit_message]. *)
Definition names_message (k : kwarg) : bool :=
  match k with
  | kw_message _ => true
  | _ => false
  end.

End Message.

(** ** The query builder

    [session.query(C)] starts a query over the rows of a table; [filter],
    [order_by], [limit] and [offset] each return a new query with one more
    clause; [all] runs it.  The clauses are evaluated in SQL order (WHERE,
    ORDER BY, OFFSET, LIMIT) whatever the order of the calls.  SQLAlchemy's
    [Query.filter] and [Query.order_by] carry the assertion
    [_no_limit_offset] and raise [InvalidRequestError] on a query that
    already has a LIMIT or an OFFSET. *)

Section Ordering.

Context {A : Type}.

(** ORDER BY: a stable insertion sort for a boolean "comes no later than". *)
Fixpoint insert_by (le : A -> A -> bool) (x : A) (l : list A) : list A :=
  match l with
  | [] => [x]
  | y :: l' => if le x y then x :: y :: l' else y :: insert_by le x l'
  end.

Definition sort_by (le : A -> A -> bool) (l : list A) : list A :=
  fold_right (insert_by le) [] l.

(** [order_by(col)] and [order_by(desc(col))] on an integer column. *)
Definition asc (col : A -> Z) : A -> A -> bool := fun a b => col a <=? col b.
Definition desc (col : A -> Z) : A -> A -> bool := fun a b => col b <=? col a.

(** [order_by(col)] on a string column (byte-wise collation). *)
Definition asc_str (col : A -> string) : A -> A -> bool :=
  fun a b => String.leb (col a) (col b).

End Ordering.

Module Query.

Section Builder.

Context {A : Type}.

Record t : Type := mk {
  rows : list A;
  criteria : list (A -> bool);
  ordering : option (A -> A -> bool);
  limit_clause : option nat;
  offset_clause : option nat
}.

Definition from (table : list A) : t := mk table [] None None None.

Definition has_limit_offset (q : t) : bool :=
  match limit_clause q, offset_clause q with
  | None, None => false
  | _, _ => true
  end.

Definition filter (q : t) (criterion : A -> bool) : result t :=
  if has_limit_offset q then Raise InvalidRequestError
  else Ok (mk (rows q) (criteria q ++ [criterion]) (ordering q)
              (limit_clause q) (offset_clause q)).

Definition order_by (q : t) (le : A -> A -> bool) : result t :=
  if has_limit_offset q then Raise InvalidRequestError
  else Ok (mk (rows q) (criteria q) (Some le)
              (limit_clause q) (offset_clause q)).

Definition limit (q : t) (n : nat) : t :=
  mk (rows q) (criteria q) (ordering q) (Some n) (offset_clause q).

Definition offset (q : t) (n : nat) : t :=
  mk (rows q) (criteria q) (ordering q) (limit_clause q) (Some n).

Definition where_clause (q : t) (r : A) : bool :=
  forallb (fun criterion => criterion r) (criteria q).

Definition ordered (q : t) (l : list A) : list A :=
  match ordering q with
  | Some le => sort_by le l
  | None => l
  end.

Definition window (lim off : option nat) (l : list A) : list A :=
  let l := match off with Some k => skipn k l | None => l end in
  match lim with Some n => firstn n l | None => l end.

Definition all (q : t) : list A :=
  window (limit_clause q) (offset_clause q)
         (ordered q (List.filter (where_clause q) (rows q))).

(** [Query.first]: [self.limit(1)] then the first row, or None. *)
Definition first (q : t) : option A := hd_error (all (limit q 1%nat)).

End Builder.

Arguments t : clear implicits.

End Query.

(** ** The database and the session *)

Record Database : Type := mkDatabase {
  user_table : list User.t;
  conversation_table : list Conversation.t;
  message_table : list Message.t
}.

(** The primary key an INSERT assigns to a row that has none: 1 in an
    empty table, otherwise one more than the largest key in use. *)
Definition next_id (ids : list Z) : Z :=
  match ids with
  | [] => 1
  | i :: rest => 1 + fold_left Z.max rest i
  end.

Fixpoint distinctb {A : Type} (eqb : A -> A -> bool) (l : list A) : bool :=
  match l with
  | [] => true
  | x :: l' => negb (existsb (eqb x) l') && distinctb eqb l'
  end.

(** The non-NULL values of a nullable column. *)
Fixpoint non_null {A : Type} (l : list (option A)) : list A :=
  match l with
  | [] => []
  | Some x :: l' => x :: non_null l'
  | None :: l' => non_null l'
  end.

Definition has_user (d : Database) (uid : Z) : bool :=
  existsb (fun u => User.id u =? uid) (user_table d).

Definition has_conversation (d : Database) (cid : Z) : bool :=
  existsb (fun c => Conversation.id c =? cid) (conversation_table d).

Definition has_message (d : Database) (mid : Z) : bool :=
  existsb (fun m => Message.id m =? mid) (message_table d).

(** What the two UNIQUE indexes of [user] would reject. *)
Definition username_taken (d : Database) (name : string) : bool :=
  existsb (fun taken => String.eqb taken name)
          (map User.username (user_table d)).

Definition email_taken (d : Database) (address : option string) : bool :=
  match address with
  | Some e =>
      existsb (fun taken => String.eqb taken e)
              (non_null (map User.email (user_table d)))
  | None => false
  end.

(** The declared constraints: primary keys, [unique=True] on
    [user.username] and [user.email] (NULLs do not collide), and the two
    foreign keys.  NOT NULL is carried by the column types. *)
Definition primary_keys_ok (d : Database) : bool :=
  distinctb Z.eqb (map User.id (user_table d))
  && distinctb Z.eqb (map Conversation.id (conversation_table d))
  && distinctb Z.eqb (map Message.id (message_table d)).

Definition unique_ok (d : Database) : bool :=
  distinctb String.eqb (map User.username (user_table d))
  && distinctb String.eqb (non_null (map User.email (user_table d))).

Definition foreign_keys_ok (d : Database) : bool :=
  forallb (fun c => has_user d (Conversation.user_id c)) (conversation_table d)
  && forallb (fun m => has_conversation d (Message.conversation_id m))
             (message_table d).

Definition constraints_ok (d : Database) : bool :=
  primary_keys_ok d && unique_ok d && foreign_keys_ok d.

(** DELETE with the [ondelete='CASCADE'] foreign keys (enforced by the
    engine: [_set_sqlite_pragma] turns [foreign_keys] on for SQLite). *)
Definition delete_message_row (mid : Z) (d : Database) : Database :=
  mkDatabase (user_table d) (conversation_table d)
    (List.filter (fun m => negb (Message.id m =? mid)) (message_table d)).

Definition delete_conversation_row (cid : Z) (d : Database) : Database :=
  if has_conversation d cid then
    mkDatabase (user_table d)
      (List.filter (fun c => negb (Conversation.id c =? cid))
                   (conversation_table d))
      (List.filter (fun m => negb (Message.conversation_id m =? cid))
                   (message_table d))
  else d.

Definition delete_user_row (uid : Z) (d : Database) : Database :=
  if has_user d uid then
    let doomed :=
      List.filter (fun c => Conversation.user_id c =? uid)
                  (conversation_table d) in
    mkDatabase
      (List.filter (fun u => negb (User.id u =? uid)) (user_table d))
      (List.filter (fun c => negb (Conversation.user_id c =? uid))
                   (conversation_table d))
      (List.filter
         (fun m => negb (existsb
                           (fun c => Conversation.id c =? Message.conversation_id m)
                           doomed))
         (message_table d))
  else d.

(** UPDATE ... SET ... WHERE id = pk: the row with that key has the
    named columns set; its other columns, and the other rows, stay. *)
Definition update_row {A : Type} (pk_of : A -> Z) (pk : Z) (set : A -> A)
  (table : list A) : list A :=
  map (fun r => if pk_of r =? pk then set r else r) table.

Definition Database_eqb (d1 d2 : Database) : bool :=
  list_eqb User.eqb (user_table d1) (user_table d2)
  && list_eqb Conversation.eqb (conversation_table d1) (conversation_table d2)
  && list_eqb Message.eqb (message_table d1) (message_table d2).

(** A session: the committed database, the state seen inside the open
    transaction, and the number of commits made so far. *)
Record Session : Type := mkSession {
  database : Database;
  transaction : Database;
  commits : nat
}.

Definition M (A : Type) : Type := Session -> result (A * Session).

Definition ret {A : Type} (a : A) : M A := fun s => Ok (a, s).

Definition bind {A B : Type} (m : M A) (k : A -> M B) : M B :=
  fun s =>
    match m s with
    | Ok (a, s') => k a s'
    | Raise e => Raise e
    end.

Definition raise {A : Type} (e : exn) : M A := fun _ => Raise e.

Definition lift {A : Type} (r : result A) : M A :=
  fun s =>
    match r with
    | Ok a => Ok (a, s)
    | Raise e => Raise e
    end.

Declare Scope orm_scope.
Delimit Scope orm_scope with orm.
Notation "x <- m ;; k" := (bind m (fun x => k))
  (at level 61, m at next level, right associativity) : orm_scope.
Notation "m ;; k" := (bind m (fun _ => k))
  (at level 61, right associativity) : orm_scope.
Local Open Scope orm_scope.

(** *** Session primitives *)

(** [session.query(C)]: a query over the table as the transaction sees it
    (the Manager runs its listings with nothing pending). *)
Definition session_query {A : Type} (table : Database -> list A)
  : M (Query.t A) :=
  fun s => Ok (Query.from (table (transaction s)), s).

(** Autoflush: before a load the session sends the statements pending in
    the transaction, and the engine checks them against the declared
    constraints.  Something is pending when the transaction state differs
    from the database. *)
Definition session_autoflush : M unit :=
  fun s =>
    if Database_eqb (database s) (transaction s) then Ok (tt, s)
    else if constraints_ok (transaction s) then Ok (tt, s)
    else Raise IntegrityError.

(** [session.get(C, pk)]: after the autoflush, the row with that primary
    key, or None.  A stored key is a 64-bit integer; asked for a key
    outside that range the driver cannot bind the parameter of the SELECT
    and raises OverflowError. *)
Definition session_get {A : Type} (table : Database -> list A)
  (pk_of : A -> Z) (pk : Z) : M (option A) :=
  session_autoflush ;;
  fun s =>
    match find (fun r => pk_of r =? pk) (table (transaction s)) with
    | Some row => Ok (Some row, s)
    | None => if in_int64 pk then Ok (None, s) else Raise OverflowError
    end.

(** [session.add(obj)] for a new object: the INSERT gives it its primary
    key (whatever [id] the transient object carried is not used). *)
Definition session_add_user (u : User.t) : M User.t :=
  fun s =>
    let d := transaction s in
    let u' := User.setattr u
                (User.kw_id (next_id (map User.id (user_table d)))) in
    Ok (u', mkSession (database s)
              (mkDatabase (user_table d ++ [u']) (conversation_table d)
                          (message_table d))
              (commits s)).

Definition session_add_conversation (c : Conversation.t)
  : M Conversation.t :=
  fun s =>
    let d := transaction s in
    let c' := Conversation.setattr c
                (Conversation.kw_id
                   (next_id (map Conversation.id (conversation_table d)))) in
    Ok (c', mkSession (database s)
              (mkDatabase (user_table d) (conversation_table d ++ [c'])
                          (message_table d))
              (commits s)).

Definition session_add_message (m : Message.t) : M Message.t :=
  fun s =>
    let d := transaction s in
    let m' := Message.setattr m
                (Message.kw_id (next_id (map Message.id (message_table d)))) in
    Ok (m', mkSession (database s)
              (mkDatabase (user_table d) (conversation_table d)
                          (message_table d ++ [m']))
              (commits s)).

(** [setattr(obj, key, value)] for each keyword, as the flush sees it.
    On an object the session holds, the attribute changes become an
    UPDATE of the named columns of the object's row, whose integer
    parameters must be bindable.  On any other object they change that
    Python object only: the session has nothing to send. *)
Definition session_update_user (user : User.t) (kwargs : list User.kwarg)
  : M unit :=
  fun s =>
    let d := transaction s in
    if existsb (User.eqb user) (user_table d) then
      if forallb User.bindable kwargs then
        Ok (tt, mkSession (database s)
                  (mkDatabase
                     (update_row User.id (User.id user)
                        (fun row => fold_left User.setattr kwargs row)
                        (user_table d))
                     (conversation_table d) (message_table d))
                  (commits s))
      else Raise OverflowError
    else Ok (tt, s).

Definition session_update_conversation (conversation : Conversation.t)
  (kwargs : list Conversation.kwarg) : M unit :=
  fun s =>
    let d := transaction s in
    if existsb (Conversation.eqb conversation) (conversation_table d) then
      if forallb Conversation.bindable kwargs then
        Ok (tt, mkSession (database s)
                  (mkDatabase (user_table d)
                     (update_row Conversation.id (Conversation.id conversation)
                        (fun row => fold_left Conversation.setattr kwargs row)
                        (conversation_table d))
                     (message_table d))
                  (commits s))
      else Raise OverflowError
    else Ok (tt, s).

Definition session_update_message (message : Message.t)
  (kwargs : list Message.kwarg) : M unit :=
  fun s =>
    let d := transaction s in
    if existsb (Message.eqb message) (message_table d) then
      if forallb Message.bindable kwargs then
        Ok (tt, mkSession (database s)
                  (mkDatabase (user_table d) (conversation_table d)
                     (update_row Message.id (Message.id message)
                        (fun row => fold_left Message.setattr kwargs row)
                        (message_table d)))
                  (commits s))
      else Raise OverflowError
    else Ok (tt, s).

(** [session.delete(obj)]: on an object the session holds, DELETE of its
    row, with cascades; on an instance that is not persisted,
    InvalidRequestError. *)
Definition session_delete {A : Type} (eqb : A -> A -> bool)
  (table : Database -> list A) (pk_of : A -> Z)
  (delete_row : Z -> Database -> Database) (obj : A) : M unit :=
  fun s =>
    if existsb (eqb obj) (table (transaction s)) then
      Ok (tt, mkSession (database s) (delete_row (pk_of obj) (transaction s))
                (commits s))
    else Raise InvalidRequestError.

(** [session.commit()]: the engine accepts the transaction when the
    declared constraints hold, and its state becomes the database. *)
Definition session_commit : M unit :=
  fun s =>
    if constraints_ok (transaction s) then
      Ok (tt, mkSession (transaction s) (transaction s) (S (commits s)))
    else Raise IntegrityError.

(** ** Manager *)

Definition _apply_limit_offset {A : Type} (query : Query.t A)
  (limit offset : option nat) : Query.t A :=
  let query :=
    match limit with
    | Some n => Query.limit query n
    | None => query
    end in
  let query :=
    match offset with
    | Some n => Query.offset query n
    | None => query
    end in
  query.

Definition orm_get_users (limit offset : option nat) : M (list User.t) :=
  query <- session_query user_table ;;
  query <- lift (Query.order_by query (asc_str User.username)) ;;
  let query := _apply_limit_offset query limit offset in
  ret (Query.all query).

(** The default of [limit], [constants.DEFAULT_HISTORY_LIMIT], lives in
    another module; [limit] is always passed explicitly here. *)
Definition orm_get_conversations (user : User.t) (limit offset : option nat)
  (order_desc : bool) : M (list Conversation.t) :=
  query <-
    (if order_desc then
       query <- session_query conversation_table ;;
       query <- lift (Query.filter query
                        (fun c => Conversation.user_id c =? User.id user)) ;;
       lift (Query.order_by query (desc Conversation.id))
     else
       query <- session_query conversation_table ;;
       lift (Query.order_by query (asc Conversation.id))) ;;
  let query := _apply_limit_offset query limit offset in
  ret (Query.all query).

(** [if target_id:] is false for None and for 0. *)
Definition target_id_truthy (target_id : option Z) : bool :=
  match target_id with
  | Some n => negb (n =? 0)
  | None => false
  end.

Definition orm_get_messages (conversation : Conversation.t)
  (limit offset : option nat) (target_id : option Z) : M (list Message.t) :=
  query <- session_query message_table ;;
  query <- lift (Query.filter query
                   (fun m => Message.conversation_id m
                             =? Conversation.id conversation)) ;;
  query <- lift (Query.order_by query (asc Message.id)) ;;
  let query := _apply_limit_offset query limit offset in
  query <-
    (match target_id with
     | Some n =>
         if target_id_truthy target_id
         then lift (Query.filter query (fun m => Message.id m <=? n))
         else ret query
     | None => ret query
     end) ;;
  ret (Query.all query).

Definition orm_get_last_message (conversation : Conversation.t)
  : M (option Message.t) :=
  query <- session_query message_table ;;
  query <- lift (Query.filter query
                   (fun m => Message.conversation_id m
                             =? Conversation.id conversation)) ;;
  query <- lift (Query.order_by query (desc Message.id)) ;;
  let query := Query.limit query 1%nat in
  ret (Query.first query).

Definition orm_get_user (user_id : Z) : M (option User.t) :=
  session_get user_table User.id user_id.

Definition orm_get_conversation (conversation_id : Z)
  : M (option Conversation.t) :=
  session_get conversation_table Conversation.id conversation_id.

Definition orm_get_message (message_id : Z) : M (option Message.t) :=
  session_get message_table Message.id message_id.

Definition orm_add_user (username : string) (password email : option string)
  (default_preset : string) (preferences : PyValue) (now : datetime)
  : M User.t :=
  let preferences := py_or preferences (PyDict []) in
  let user := User.mk 0 username password email default_preset now
                      (Some now) preferences in
  user <- session_add_user user ;;
  session_commit ;;
  ret user.

Definition orm_add_conversation (user : User.t) (title : option string)
  (hidden : bool) (now : datetime) : M Conversation.t :=
  let conversation := Conversation.mk 0 (User.id user) title now now false in
  conversation <- session_add_conversation conversation ;;
  session_commit ;;
  ret conversation.

(** Everything [orm_add_message] does before its commit. *)
Definition orm_add_message_pending (conversation : Conversation.t)
  (role message message_type : string) (message_metadata : option string)
  (provider model preset : string) (now : datetime) : M Message.t :=
  let message := Message.mk 0 (Conversation.id conversation) role message
                            message_type message_metadata model provider
                            preset now in
  message <- session_add_message message ;;
  conversation_update <- orm_get_conversation (Conversation.id conversation) ;;
  match conversation_update with
  | Some row =>
      session_update_conversation row [Conversation.kw_updated_time now]
  | None => raise AttributeError
  end ;;
  ret message.

Definition orm_add_message (conversation : Conversation.t)
  (role message message_type : string) (message_metadata : option string)
  (provider model preset : string) (now : datetime) : M Message.t :=
  message <- orm_add_message_pending conversation role message message_type
               message_metadata provider model preset now ;;
  session_commit ;;
  ret message.

Definition orm_edit_user (user : User.t) (kwargs : list User.kwarg)
  : M User.t :=
  let edited := fold_left User.setattr kwargs user in
  session_update_user user kwargs ;;
  session_commit ;;
  ret edited.

Definition orm_edit_conversation (conversation : Conversation.t)
  (kwargs : list Conversation.kwarg) : M Conversation.t :=
  let edited := fold_left Conversation.setattr kwargs conversation in
  session_update_conversation conversation kwargs ;;
  session_commit ;;
  ret edited.

(** A keyword [message=...] collides with the parameter [message] of
    [orm_edit_message(self, message, **kwargs)]: the call raises TypeError
    before the body runs. *)
Definition orm_edit_message (message : Message.t)
  (kwargs : list Message.kwarg) : M Message.t :=
  if existsb Message.names_message kwargs then raise TypeError
  else
    let edited := fold_left Message.setattr kwargs message in
    session_update_message message kwargs ;;
    session_commit ;;
    ret edited.

(** [orm_delete_user] ends with [return user]; the other two delete
    methods have no [return] statement, so they evaluate to None. *)
Definition orm_delete_user (user : User.t) : M (option User.t) :=
  session_delete User.eqb user_table User.id delete_user_row user ;;
  session_commit ;;
  ret (Some user).

Definition orm_delete_conversation (conversation : Conversation.t)
  : M (option Conversation.t) :=
  session_delete Conversation.eqb conversation_table Conversation.id
                 delete_conversation_row conversation ;;
  session_commit ;;
  ret None.

Definition orm_delete_message (message : Message.t)
  : M (option Message.t) :=
  session_delete Message.eqb message_table Message.id delete_message_row
                 message ;;
  session_commit ;;
  ret None.

(** ** Orm *)

(** The URL that [Orm.create_engine_and_metadata] hands to
    [create_engine]: the configured database string, followed by
    [?check_same_thread=False] when that string starts with [sqlite]. *)
Definition create_engine_url (database : string) : string :=
  let args := ""%string in
  let args :=
    if String.prefix "sqlite" database
    then "?check_same_thread=False"%string
    else args in
  (database ++ args)%string.

(** [inspect(obj).mapper.column_attrs]: the mapped columns of each class,
    in the order of their declaration. *)
Definition user_column_attrs : list User.column :=
  [User.c_id; User.c_username; User.c_password; User.c_email;
   User.c_default_preset; User.c_created_time; User.c_last_login_time;
   User.c_preferences].

Definition conversation_column_attrs : list Conversation.column :=
  [Conversation.c_id; Conversation.c_user_id; Conversation.c_title;
   Conversation.c_created_time; Conversation.c_updated_time;
   Conversation.c_hidden].

Definition message_column_attrs : list Message.column :=
  [Message.c_id; Message.c_conversation_id; Message.c_role;
   Message.c_message; Message.c_message_type; Message.c_message_metadata;
   Message.c_model; Message.c_provider; Message.c_preset;
   Message.c_created_time].

(** [Orm.object_as_dict]: one entry per mapped column, the column's key
    with the object's value for it (an entry is a [kwarg]: the key is
    [key] of it). *)
Definition object_as_dict {E K C : Type} (column_attrs : list C)
  (getattr : C -> E -> K) (obj : E) : list K :=
  map (fun c => getattr c obj) column_attrs.

(** ** Specification vocabulary *)

(** A list is ordered for [le] when every row comes no later than all the
    rows after it. *)
Definition ordered_by {A : Type} (le : A -> A -> bool) (l : list A) : Prop :=
  StronglySorted (fun a b => le a b = true) l.

(** Every Conversation references an existing User and every Message an
    existing Conversation. *)
Definition referential_integrity (d : Database) : Prop :=
  (forall c, In c (conversation_table d) ->
     exists u, In u (user_table d) /\ User.id u = Conversation.user_id c)
  /\ (forall m, In m (message_table d) ->
        exists c, In c (conversation_table d)
                  /\ Conversation.id c = Message.conversation_id m).

(** A write has been committed: nothing is pending and exactly one more
    commit was made. *)
Definition committed_once (s s' : Session) : Prop :=
  database s' = transaction s' /\ commits s' = S (commits s).

(** ** Sample data *)

Definition alice : User.t :=
  User.mk 1 "alice" None None "" 10 (Some 10) (PyDict []).

Definition bob : User.t :=
  User.mk 2 "bob" None (Some "bob@example.org"%string) "" 11 (Some 11)
          (PyDict []).

Definition chat_a : Conversation.t :=
  Conversation.mk 1 1 (Some "first"%string) 20 20 false.

Definition chat_b : Conversation.t :=
  Conversation.mk 2 2 None 21 21 false.

Definition hello : Message.t :=
  Message.mk 1 1 "user" "hello" "content" None "gpt" "chat" "" 30.

Definition reply : Message.t :=
  Message.mk 2 1 "assistant" "hi" "content" None "gpt" "chat" "" 31.

Definition other : Message.t :=
  Message.mk 3 2 "user" "ping" "content" None "gpt" "chat" "" 32.

Definition sample_db : Database :=
  mkDatabase [alice; bob] [chat_a; chat_b] [hello; reply; other].

Definition sample_session : Session := mkSession sample_db sample_db 0.

Definition empty_db : Database := mkDatabase [] [] [].

Definition empty_session : Session := mkSession empty_db empty_db 0.

(** * Properties *)

(** ** Equality tests *)

Lemma PyValue_eqb_eq : forall a b : PyValue, PyValue_eqb a b = true <-> a = b.
Proof.
  fix IH 1. intros a b. destruct a as [|x|x|x|xs|xs], b as [|y|y|y|ys|ys];
    simpl; try (split; intros H; discriminate H).
  - split; reflexivity.
  - rewrite Bool.eqb_true_iff. split; congruence.
  - rewrite Z.eqb_eq. split; congruence.
  - rewrite String.eqb_eq. split; congruence.
  - revert ys. induction xs as [|x xs IHxs]; intros [|y ys];
      try (split; intros H; discriminate H).
    + split; reflexivity.
    + rewrite andb_true_iff, (IH x y), IHxs. split.
      * intros [-> H]. now inversion H.
      * intros H. inversion H. auto.
  - revert ys. induction xs as [|[k x] xs IHxs]; intros [|[l y] ys];
      try (split; intros H; discriminate H).
    + split; reflexivity.
    + rewrite !andb_true_iff, String.eqb_eq, (IH x y), IHxs. split.
      * intros [[-> ->] H]. now inversion H.
      * intros H. inversion H. auto.
Qed.

Lemma option_eqb_eq {A : Type} (eqb : A -> A -> bool) :
  (forall x y, eqb x y = true <-> x = y) ->
  forall a b, option_eqb eqb a b = true <-> a = b.
Proof.
  intros Heq [x|] [y|]; simpl; try (split; intros H; discriminate H).
  - rewrite Heq. split; congruence.
  - split; reflexivity.
Qed.

Lemma list_eqb_eq {A : Type} (eqb : A -> A -> bool) :
  (forall x y, eqb x y = true <-> x = y) ->
  forall l1 l2, list_eqb eqb l1 l2 = true <-> l1 = l2.
Proof.
  intros Heq. induction l1 as [|x l1 IH]; intros [|y l2]; simpl;
    try (split; intros H; discriminate H).
  - split; reflexivity.
  - rewrite andb_true_iff, Heq, IH. split.
    + intros [-> ->]. reflexivity.
    + intros H. inversion H. auto.
Qed.

Lemma list_eqb_length {A : Type} (eqb : A -> A -> bool) (l1 l2 : list A) :
  list_eqb eqb l1 l2 = true -> List.length l1 = List.length l2.
Proof.
  revert l2. induction l1 as [|x l1 IH]; intros [|y l2]; simpl;
    try discriminate; [reflexivity|].
  intros H. apply andb_true_iff in H. f_equal. apply IH. tauto.
Qed.

Lemma user_eqb_eq (u v : User.t) : User.eqb u v = true <-> u = v.
Proof.
  unfold User.eqb. destruct u, v. simpl.
  rewrite !andb_true_iff, !Z.eqb_eq, !String.eqb_eq,
    !(option_eqb_eq String.eqb String.eqb_eq),
    (option_eqb_eq Z.eqb Z.eqb_eq), PyValue_eqb_eq.
  split.
  - intros [[[[[[[-> ->] ->] ->] ->] ->] ->] ->]. reflexivity.
  - intros H. inversion H. tauto.
Qed.

Lemma conversation_eqb_eq (c d : Conversation.t) :
  Conversation.eqb c d = true <-> c = d.
Proof.
  unfold Conversation.eqb. destruct c, d. simpl.
  rewrite !andb_true_iff, !Z.eqb_eq,
    (option_eqb_eq String.eqb String.eqb_eq), Bool.eqb_true_iff.
  split.
  - intros [[[[[-> ->] ->] ->] ->] ->]. reflexivity.
  - intros H. inversion H. tauto.
Qed.

Lemma message_eqb_eq (m n : Message.t) : Message.eqb m n = true <-> m = n.
Proof.
  unfold Message.eqb. destruct m, n. simpl.
  rewrite !andb_true_iff, !Z.eqb_eq, !String.eqb_eq,
    (option_eqb_eq String.eqb String.eqb_eq).
  split.
  - intros [[[[[[[[[-> ->] ->] ->] ->] ->] ->] ->] ->] ->]. reflexivity.
  - intros H. inversion H. tauto.
Qed.

Lemma Database_eqb_eq (d1 d2 : Database) :
  Database_eqb d1 d2 = true <-> d1 = d2.
Proof.
  unfold Database_eqb. destruct d1, d2. simpl.
  rewrite !andb_true_iff, (list_eqb_eq User.eqb user_eqb_eq),
    (list_eqb_eq Conversation.eqb conversation_eqb_eq),
    (list_eqb_eq Message.eqb message_eqb_eq).
  split.
  - intros [[-> ->] ->]. reflexivity.
  - intros H. inversion H. tauto.
Qed.

Lemma Database_eqb_refl (d : Database) : Database_eqb d d = true.
Proof. now apply Database_eqb_eq. Qed.

(** An object is held by the session exactly when it is one of the rows. *)
Lemma held_iff {A : Type} (eqb : A -> A -> bool) (obj : A) (table : list A) :
  (forall x y, eqb x y = true <-> x = y) ->
  existsb (eqb obj) table = true <-> In obj table.
Proof.
  intros Heq. rewrite existsb_exists. split.
  - intros [r [Hr He]]. apply Heq in He. now subst.
  - intros Hin. exists obj. split; [assumption | now apply Heq].
Qed.


(** ** Loading by primary key *)

Lemma session_autoflush_clean (s : Session) :
  database s = transaction s -> session_autoflush s = Ok (tt, s).
Proof.
  intros H. unfold session_autoflush. rewrite H.
  now rewrite Database_eqb_refl.
Qed.

Lemma session_autoflush_valid (s : Session) :
  constraints_ok (transaction s) = true -> session_autoflush s = Ok (tt, s).
Proof.
  intros H. unfold session_autoflush. rewrite H.
  now destruct (Database_eqb _ _).
Qed.

Lemma session_get_run {A : Type} (table : Database -> list A)
  (pk_of : A -> Z) (pk : Z) (s : Session) :
  session_autoflush s = Ok (tt, s) ->
  session_get table pk_of pk s
  = match find (fun r => pk_of r =? pk) (table (transaction s)) with
    | Some row => Ok (Some row, s)
    | None => if in_int64 pk then Ok (None, s) else Raise OverflowError
    end.
Proof.
  intros H. unfold session_get, bind. now rewrite H.
Qed.

(** ** Lists, ordering and windows *)

Section OrderingFacts.

Context {A : Type} (le : A -> A -> bool).

Lemma insert_by_perm (x : A) (l : list A) :
  Permutation (insert_by le x l) (x :: l).
Proof.
  induction l as [|y l IH]; simpl.
  - apply Permutation_refl.
  - destruct (le x y).
    + apply Permutation_refl.
    + eapply perm_trans; [apply perm_skip, IH | apply perm_swap].
Qed.

Lemma sort_by_perm (l : list A) : Permutation (sort_by le l) l.
Proof.
  induction l as [|x l IH]; simpl.
  - constructor.
  - eapply perm_trans; [apply insert_by_perm | apply perm_skip, IH].
Qed.

Lemma sort_by_In (l : list A) (x : A) : In x (sort_by le l) <-> In x l.
Proof.
  split; apply Permutation_in;
    [apply sort_by_perm | apply Permutation_sym, sort_by_perm].
Qed.

Hypothesis le_total : forall a b, le a b = true \/ le b a = true.
Hypothesis le_trans :
  forall a b c, le a b = true -> le b c = true -> le a c = true.

Lemma insert_by_ordered (x : A) (l : list A) :
  ordered_by le l -> ordered_by le (insert_by le x l).
Proof.
  unfold ordered_by.
  induction l as [|y l IH]; simpl; intros Hs.
  - repeat constructor.
  - inversion Hs as [|? ? Hl Hy]; subst.
    destruct (le x y) eqn:Hxy.
    + constructor; [assumption|].
      constructor; [assumption|].
      rewrite Forall_forall in *. intros z Hz. eauto.
    + constructor; [auto|].
      assert (Hyx : le y x = true)
        by (destruct (le_total x y); congruence).
      rewrite Forall_forall in *. intros z Hz.
      apply (Permutation_in _ (insert_by_perm x l)) in Hz.
      destruct Hz as [<-|Hz]; auto.
Qed.

Lemma sort_by_ordered (l : list A) : ordered_by le (sort_by le l).
Proof.
  induction l as [|x l IH]; simpl.
  - constructor.
  - apply insert_by_ordered, IH.
Qed.

End OrderingFacts.

Section WindowFacts.

Context {A : Type}.

Lemma firstn_incl (n : nat) (l : list A) : incl (firstn n l) l.
Proof.
  intros x Hx. rewrite <- (firstn_skipn n l). apply in_or_app. now left.
Qed.

Lemma skipn_incl (n : nat) (l : list A) : incl (skipn n l) l.
Proof.
  intros x Hx. rewrite <- (firstn_skipn n l). apply in_or_app. now right.
Qed.

Lemma window_incl (lim off : option nat) (l : list A) :
  incl (Query.window lim off l) l.
Proof.
  unfold Query.window. intros x Hx.
  destruct lim as [n|], off as [k|]; auto.
  - apply firstn_incl, skipn_incl in Hx. exact Hx.
  - eapply firstn_incl. exact Hx.
  - eapply skipn_incl. exact Hx.
Qed.

Lemma window_none (l : list A) : Query.window None None l = l.
Proof. reflexivity. Qed.

Lemma StronglySorted_app_inv (R : A -> A -> Prop) (l1 l2 : list A) :
  StronglySorted R (l1 ++ l2) -> StronglySorted R l1 /\ StronglySorted R l2.
Proof.
  induction l1 as [|x l1 IH]; simpl; intros Hs.
  - split; [constructor | assumption].
  - inversion Hs as [|? ? Hl Hx]; subst.
    destruct (IH Hl) as [H1 H2]. split; [|assumption].
    constructor; [assumption|].
    apply Forall_app in Hx. tauto.
Qed.

Lemma window_ordered (le : A -> A -> bool) (lim off : option nat)
  (l : list A) :
  ordered_by le l -> ordered_by le (Query.window lim off l).
Proof.
  unfold ordered_by, Query.window. intros Hs.
  assert (Hskip : forall k, StronglySorted (fun a b => le a b = true)
                                           (skipn k l)).
  { intros k. rewrite <- (firstn_skipn k l) in Hs.
    apply StronglySorted_app_inv in Hs. tauto. }
  assert (Hfirst : forall n l', StronglySorted (fun a b => le a b = true) l'
            -> StronglySorted (fun a b => le a b = true) (firstn n l')).
  { intros n l' Hl'. rewrite <- (firstn_skipn n l') in Hl'.
    apply StronglySorted_app_inv in Hl'. tauto. }
  destruct lim as [n|], off as [k|]; auto.
Qed.

End WindowFacts.

(** ** The column orders are total preorders *)

Lemma asc_total {A : Type} (col : A -> Z) (a b : A) :
  asc col a b = true \/ asc col b a = true.
Proof. unfold asc. rewrite !Z.leb_le. lia. Qed.

Lemma asc_trans {A : Type} (col : A -> Z) (a b c : A) :
  asc col a b = true -> asc col b c = true -> asc col a c = true.
Proof. unfold asc. rewrite !Z.leb_le. lia. Qed.

Lemma desc_total {A : Type} (col : A -> Z) (a b : A) :
  desc col a b = true \/ desc col b a = true.
Proof. unfold desc. rewrite !Z.leb_le. lia. Qed.

Lemma desc_trans {A : Type} (col : A -> Z) (a b c : A) :
  desc col a b = true -> desc col b c = true -> desc col a c = true.
Proof. unfold desc. rewrite !Z.leb_le. lia. Qed.

Lemma string_leb_cases (a b : string) :
  String.leb a b = true <-> a = b \/ String_as_OT.lt a b.
Proof.
  unfold String.leb.
  destruct (String.compare a b) eqn:Hc; split; intros H; try reflexivity.
  - left. now apply String_as_OT.cmp_eq.
  - right. now apply String_as_OT.cmp_lt.
  - discriminate.
  - exfalso. destruct H as [->|Hlt].
    + assert (String_as_OT.cmp b b = Eq) by now apply String_as_OT.cmp_eq.
      unfold String_as_OT.cmp in *. congruence.
    + apply String_as_OT.cmp_lt in Hlt.
      unfold String_as_OT.cmp in *. congruence.
Qed.

Lemma asc_str_total {A : Type} (col : A -> string) (a b : A) :
  asc_str col a b = true \/ asc_str col b a = true.
Proof. apply String.leb_total. Qed.

Lemma asc_str_trans {A : Type} (col : A -> string) (a b c : A) :
  asc_str col a b = true -> asc_str col b c = true -> asc_str col a c = true.
Proof.
  unfold asc_str. rewrite !string_leb_cases.
  intros [E1|L1] [E2|L2].
  - left. congruence.
  - right. rewrite E1. assumption.
  - right. rewrite <- E2. assumption.
  - right. eapply String_as_OT.lt_trans; eassumption.
Qed.

(** ** Running a query *)

Lemma filter_all_true {A : Type} (l : list A) :
  List.filter (fun _ => true) l = l.
Proof. induction l; simpl; congruence. Qed.

Lemma all_apply_limit_offset {A : Type} (q : Query.t A)
  (limit offset : option nat) :
  Query.has_limit_offset q = false ->
  Query.all (_apply_limit_offset q limit offset)
  = Query.window limit offset
      (Query.ordered q (List.filter (Query.where_clause q) (Query.rows q))).
Proof.
  unfold Query.has_limit_offset. destruct q as [r c o [n|] [k|]]; simpl;
    try discriminate.
  intros _. destruct limit, offset; reflexivity.
Qed.

Lemma orm_get_users_run (s : Session) (limit offset : option nat) :
  orm_get_users limit offset s
  = Ok (Query.window limit offset
          (sort_by (asc_str User.username) (user_table (transaction s))), s).
Proof.
  unfold orm_get_users, bind, session_query, lift, ret. simpl.
  rewrite all_apply_limit_offset by reflexivity.
  unfold Query.ordered, Query.where_clause. simpl.
  now rewrite filter_all_true.
Qed.

(** C9. [orm_get_users(limit, offset)] always returns, and what it returns
    is the offset/limit window of the stored Users arranged in ascending
    username order: there is an arrangement of exactly the stored rows,
    ordered by username, of which the result skips the first [offset] rows
    and keeps the next [limit] (all of them when no limit is given). *)
Theorem orm_get_users_ordered_window (s : Session) (limit offset : option nat) :
  exists arranged,
    Permutation arranged (user_table (transaction s))
    /\ ordered_by (fun a b => String.leb (User.username a) (User.username b))
                  arranged
    /\ orm_get_users limit offset s
       = Ok (match limit with
             | Some n => firstn n
             | None => fun l => l
             end (match offset with
                  | Some k => skipn k arranged
                  | None => arranged
                  end), s).
Proof.
  exists (sort_by (asc_str User.username) (user_table (transaction s))).
  split; [apply sort_by_perm|]. split.
  - apply (sort_by_ordered (asc_str User.username));
      [apply asc_str_total | apply asc_str_trans].
  - rewrite orm_get_users_run. unfold Query.window.
    destruct limit, offset; reflexivity.
Qed.

Lemma filter_single_criterion {A : Type} (p : A -> bool) (l : list A) :
  List.filter (fun r => p r && true) l = List.filter p l.
Proof.
  apply filter_ext. intros r. simpl. apply andb_true_r.
Qed.

Lemma filter_two_criteria {A : Type} (p q : A -> bool) (l : list A) :
  List.filter (fun r => p r && (q r && true)) l
  = List.filter (fun r => p r && q r) l.
Proof.
  apply filter_ext. intros r. simpl. now rewrite andb_true_r.
Qed.

Lemma hd_error_firstn_1 {A : Type} (l : list A) :
  hd_error (firstn 1 l) = hd_error l.
Proof. destruct l; reflexivity. Qed.

(** ** Reading messages *)

Lemma orm_get_last_message_run (s : Session) (conversation : Conversation.t) :
  orm_get_last_message conversation s
  = Ok (hd_error
          (sort_by (desc Message.id)
             (List.filter
                (fun m => Message.conversation_id m
                          =? Conversation.id conversation)
                (message_table (transaction s)))), s).
Proof.
  unfold orm_get_last_message, bind, session_query, lift, ret. simpl.
  unfold Query.first, Query.all, Query.ordered, Query.where_clause,
    Query.window. simpl Query.limit_clause. simpl Query.offset_clause.
  cbv beta iota. rewrite hd_error_firstn_1. simpl.
  now rewrite filter_single_criterion.
Qed.

(** C8. [orm_get_last_message(conversation)] always returns; it returns
    None exactly when no stored Message belongs to the conversation, and
    otherwise a stored Message of that conversation whose id is at least
    the id of every Message of the conversation. *)
Theorem orm_get_last_message_greatest (s : Session)
  (conversation : Conversation.t) :
  exists last_message,
    orm_get_last_message conversation s = Ok (last_message, s)
    /\ match last_message with
       | Some m =>
           In m (message_table (transaction s))
           /\ Message.conversation_id m = Conversation.id conversation
           /\ forall m',
                In m' (message_table (transaction s)) ->
                Message.conversation_id m' = Conversation.id conversation ->
                Message.id m' <= Message.id m
       | None =>
           forall m',
             In m' (message_table (transaction s)) ->
             Message.conversation_id m' <> Conversation.id conversation
       end.
Proof.
  rewrite orm_get_last_message_run.
  set (mine := List.filter _ _).
  eexists. split; [reflexivity|].
  pose proof (sort_by_ordered (desc Message.id) (desc_total _) (desc_trans _)
                mine) as Hsorted.
  pose proof (sort_by_In (desc Message.id) mine) as Hin.
  destruct (sort_by (desc Message.id) mine) as [|m rest] eqn:Hsort; simpl.
  - intros m' Hm' Hconv.
    apply (proj2 (Hin m')). unfold mine. apply filter_In.
    split; [assumption | now apply Z.eqb_eq].
  - assert (Hm : In m mine) by (apply Hin; now left).
    unfold mine in Hm. apply filter_In in Hm. destruct Hm as [Hm Hc].
    apply Z.eqb_eq in Hc. repeat split; try assumption.
    intros m' Hm' Hconv.
    assert (Hm'' : In m' (m :: rest)).
    { apply Hin. unfold mine. apply filter_In.
      split; [assumption | now apply Z.eqb_eq]. }
    destruct Hm'' as [<-|Hrest]; [lia|].
    inversion Hsorted as [|? ? _ Hall]; subst.
    rewrite Forall_forall in Hall. specialize (Hall _ Hrest).
    unfold desc in Hall. now apply Z.leb_le.
Qed.

Lemma orm_get_messages_run_uncapped (s : Session)
  (conversation : Conversation.t) (limit offset : option nat)
  (target_id : option Z) :
  target_id_truthy target_id = false ->
  orm_get_messages conversation limit offset target_id s
  = Ok (Query.window limit offset
          (sort_by (asc Message.id)
             (List.filter
                (fun m => Message.conversation_id m
                          =? Conversation.id conversation)
                (message_table (transaction s)))), s).
Proof.
  intros Hfalsy.
  assert (Hcase : target_id = None \/ target_id = Some 0).
  { destruct target_id as [n|]; [right | now left].
    simpl in Hfalsy. apply negb_false_iff, Z.eqb_eq in Hfalsy. now subst. }
  destruct Hcase; subst target_id;
    unfold orm_get_messages, bind, session_query, lift, ret; simpl;
    destruct limit, offset; simpl;
    unfold Query.all, Query.ordered, Query.where_clause, Query.window; simpl;
    now rewrite filter_single_criterion.
Qed.

Lemma orm_get_messages_run_capped (s : Session)
  (conversation : Conversation.t) (n : Z) :
  n <> 0 ->
  orm_get_messages conversation None None (Some n) s
  = Ok (sort_by (asc Message.id)
          (List.filter
             (fun m => (Message.conversation_id m
                        =? Conversation.id conversation)
                       && (Message.id m <=? n))
             (message_table (transaction s))), s).
Proof.
  intros Hn.
  unfold orm_get_messages, bind, session_query, lift, ret, target_id_truthy.
  simpl. destruct (Z.eqb_spec n 0) as [|_]; [contradiction|]. simpl.
  unfold Query.all, Query.ordered, Query.where_clause, Query.window. simpl.
  now rewrite filter_two_criteria.
Qed.

(** With a non-zero [target_id], a [limit] or an [offset] makes the
    second [filter] call raise. *)
Lemma orm_get_messages_run_capped_window (s : Session)
  (conversation : Conversation.t) (limit offset : option nat) (n : Z) :
  n <> 0 ->
  (limit <> None \/ offset <> None) ->
  orm_get_messages conversation limit offset (Some n) s
  = Raise InvalidRequestError.
Proof.
  intros Hn Hwin.
  unfold orm_get_messages, bind, session_query, lift, ret, target_id_truthy.
  simpl. destruct (Z.eqb_spec n 0) as [|_]; [contradiction|]. simpl.
  destruct limit, offset; simpl; try reflexivity.
  destruct Hwin; congruence.
Qed.

Lemma ordered_by_asc {A : Type} (col : A -> Z) (l : list A) :
  ordered_by (asc col) l -> StronglySorted (fun a b => col a <= col b) l.
Proof.
  unfold ordered_by, asc. induction 1 as [|x l _ IH Hall]; constructor; auto.
  eapply Forall_impl; [|exact Hall]. intros b Hb. now apply Z.leb_le.
Qed.

Lemma ordered_by_desc {A : Type} (col : A -> Z) (l : list A) :
  ordered_by (desc col) l -> StronglySorted (fun a b => col b <= col a) l.
Proof.
  unfold ordered_by, desc. induction 1 as [|x l _ IH Hall]; constructor; auto.
  eapply Forall_impl; [|exact Hall]. intros b Hb. now apply Z.leb_le.
Qed.

(** C2, as stated, fails at target_id 0: the test [if target_id:] takes 0
    for "no target", so no cap is applied and a Message with id 1 is
    returned. *)
Lemma orm_get_messages_target_zero :
  exists ms,
    orm_get_messages chat_a None None (Some 0) sample_session
    = Ok (ms, sample_session)
    /\ exists m, In m ms /\ ~ Message.id m <= 0.
Proof.
  exists [hello; reply]. split; [reflexivity|].
  exists hello. split; [now left | simpl; lia].
Qed.

(** C2 (amended). For every conversation and every non-zero target id N:
    whenever [orm_get_messages(conversation, limit, offset, target_id=N)]
    returns, it returns only stored Messages of that conversation with
    id <= N, in ascending id order, and leaves the session as it was;
    and called without limit and offset it does return, with exactly the
    Messages of the conversation whose id is <= N. *)
Theorem orm_get_messages_capped (s : Session) (conversation : Conversation.t)
  (limit offset : option nat) (N : Z) :
  N <> 0 ->
  (forall ms s',
     orm_get_messages conversation limit offset (Some N) s = Ok (ms, s') ->
     s' = s
     /\ Forall (fun m => In m (message_table (transaction s))
                         /\ Message.conversation_id m
                            = Conversation.id conversation
                         /\ Message.id m <= N) ms
     /\ StronglySorted (fun a b => Message.id a <= Message.id b) ms)
  /\ (exists ms,
        orm_get_messages conversation None None (Some N) s = Ok (ms, s)
        /\ (forall m, In m ms <->
                      In m (message_table (transaction s))
                      /\ Message.conversation_id m
                         = Conversation.id conversation
                      /\ Message.id m <= N)
        /\ StronglySorted (fun a b => Message.id a <= Message.id b) ms).
Proof.
  intros HN.
  assert (Hmem : forall m,
             In m (sort_by (asc Message.id)
                     (List.filter
                        (fun m => (Message.conversation_id m
                                   =? Conversation.id conversation)
                                  && (Message.id m <=? N))
                        (message_table (transaction s))))
             <-> In m (message_table (transaction s))
                 /\ Message.conversation_id m = Conversation.id conversation
                 /\ Message.id m <= N).
  { intros m. rewrite sort_by_In, filter_In, andb_true_iff, Z.eqb_eq,
      Z.leb_le. tauto. }
  assert (Hord : StronglySorted (fun a b => Message.id a <= Message.id b)
                   (sort_by (asc Message.id)
                      (List.filter
                         (fun m => (Message.conversation_id m
                                    =? Conversation.id conversation)
                                   && (Message.id m <=? N))
                         (message_table (transaction s))))).
  { apply ordered_by_asc, sort_by_ordered;
      [apply asc_total | apply asc_trans]. }
  split.
  - intros ms s' Hrun.
    destruct limit as [n|] eqn:El.
    { rewrite orm_get_messages_run_capped_window in Hrun;
        [discriminate | assumption | left; discriminate]. }
    destruct offset as [k|] eqn:Eo.
    { rewrite orm_get_messages_run_capped_window in Hrun;
        [discriminate | assumption | right; discriminate]. }
    rewrite orm_get_messages_run_capped in Hrun by assumption.
    inversion Hrun; subst. split; [reflexivity|]. split; [|exact Hord].
    apply Forall_forall. intros m Hm. now apply Hmem.
  - eexists. split; [now apply orm_get_messages_run_capped|].
    split; assumption.
Qed.

Lemma orm_get_messages_capped_witness :
  exists ms,
    orm_get_messages chat_a None None (Some 1) sample_session
    = Ok (ms, sample_session)
    /\ (forall m, In m ms <->
                  In m (message_table (transaction sample_session))
                  /\ Message.conversation_id m = Conversation.id chat_a
                  /\ Message.id m <= 1)
    /\ StronglySorted (fun a b => Message.id a <= Message.id b) ms.
Proof.
  assert (H : 1 <> 0) by lia.
  exact (proj2 (orm_get_messages_capped sample_session chat_a None None 1 H)).
Defined.

(** ** Listing conversations *)

Lemma orm_get_conversations_run_desc (s : Session) (user : User.t)
  (limit offset : option nat) :
  orm_get_conversations user limit offset true s
  = Ok (Query.window limit offset
          (sort_by (desc Conversation.id)
             (List.filter (fun c => Conversation.user_id c =? User.id user)
                          (conversation_table (transaction s)))), s).
Proof.
  unfold orm_get_conversations, bind, session_query, lift, ret. simpl.
  rewrite all_apply_limit_offset by reflexivity.
  unfold Query.ordered, Query.where_clause. simpl.
  now rewrite filter_single_criterion.
Qed.

Lemma orm_get_conversations_run_asc (s : Session) (user : User.t)
  (limit offset : option nat) :
  orm_get_conversations user limit offset false s
  = Ok (Query.window limit offset
          (sort_by (asc Conversation.id)
                   (conversation_table (transaction s))), s).
Proof.
  unfold orm_get_conversations, bind, session_query, lift, ret. simpl.
  rewrite all_apply_limit_offset by reflexivity.
  unfold Query.ordered, Query.where_clause. simpl.
  now rewrite filter_all_true.
Qed.

(** The descending branch does what the listing promises: the result is
    the offset/limit window of an arrangement, in descending id order, of
    exactly the stored Conversations whose user_id is the user's id (each
    as many times as it is stored). *)
Lemma orm_get_conversations_descending (s : Session) (user : User.t)
  (limit offset : option nat) :
  exists mine,
    Permutation mine
      (List.filter (fun c => Conversation.user_id c =? User.id user)
                   (conversation_table (transaction s)))
    /\ (forall c, In c mine <->
                  In c (conversation_table (transaction s))
                  /\ Conversation.user_id c = User.id user)
    /\ StronglySorted (fun a b => Conversation.id b <= Conversation.id a) mine
    /\ orm_get_conversations user limit offset true s
       = Ok (Query.window limit offset mine, s).
Proof.
  exists (sort_by (desc Conversation.id)
            (List.filter (fun c => Conversation.user_id c =? User.id user)
                         (conversation_table (transaction s)))).
  split; [apply sort_by_perm|].
  split; [|split; [|apply orm_get_conversations_run_desc]].
  - intros c. rewrite sort_by_In, filter_In, Z.eqb_eq. tauto.
  - apply ordered_by_desc, sort_by_ordered;
      [apply desc_total | apply desc_trans].
Qed.

(** The ascending branch orders every stored Conversation by id, whoever
    owns it. *)
Lemma orm_get_conversations_ascending (s : Session) (user : User.t)
  (limit offset : option nat) :
  exists everyone,
    Permutation everyone (conversation_table (transaction s))
    /\ StronglySorted (fun a b => Conversation.id a <= Conversation.id b)
                      everyone
    /\ orm_get_conversations user limit offset false s
       = Ok (Query.window limit offset everyone, s).
Proof.
  eexists. split; [|split; [|apply orm_get_conversations_run_asc]].
  - apply sort_by_perm.
  - apply ordered_by_asc, sort_by_ordered;
      [apply asc_total | apply asc_trans].
Qed.

(** C1 (the code at the failing input). With [order_desc=False] the query
    has no [filter] on [user_id]: asked for alice's Conversations, the
    method also returns [chat_b], which belongs to bob. *)
Theorem orm_get_conversations_ascending_foreign_rows :
  orm_get_conversations alice None None false sample_session
  = Ok ([chat_a; chat_b], sample_session)
  /\ Conversation.user_id chat_b <> User.id alice.
Proof.
  split; [reflexivity | discriminate].
Qed.

(** ** Keys and constraints *)

Lemma fold_left_max_ge (l : list Z) (a : Z) :
  a <= fold_left Z.max l a /\ forall i, In i l -> i <= fold_left Z.max l a.
Proof.
  revert a. induction l as [|x l IH]; intros a; simpl.
  - split; [lia | tauto].
  - destruct (IH (Z.max a x)) as [Ha Hl]. split; [lia|].
    intros i [<-|Hi]; [lia | auto].
Qed.

Lemma next_id_fresh (ids : list Z) (i : Z) : In i ids -> i < next_id ids.
Proof.
  destruct ids as [|j rest]; [contradiction|].
  unfold next_id. destruct (fold_left_max_ge rest j) as [Hj Hrest].
  intros [<-|Hi]; [lia|]. specialize (Hrest _ Hi). lia.
Qed.

Lemma next_id_not_used {A : Type} (pk_of : A -> Z) (table : list A) :
  existsb (fun r => pk_of r =? next_id (map pk_of table)) table = false.
Proof.
  apply not_true_is_false. intros H.
  apply existsb_exists in H. destruct H as [r [Hr Heq]].
  apply Z.eqb_eq in Heq.
  pose proof (next_id_fresh (map pk_of table) (pk_of r) (in_map _ _ _ Hr)).
  lia.
Qed.

Section Distinct.

Context {B : Type} (eqb : B -> B -> bool).

Lemma distinctb_snoc (l : list B) (y : B) :
  distinctb eqb l = true ->
  existsb (fun x => eqb x y) l = false ->
  distinctb eqb (l ++ [y]) = true.
Proof.
  induction l as [|x l IH]; simpl; intros Hd Hy; [reflexivity|].
  apply andb_true_iff in Hd. destruct Hd as [Hx Hd].
  apply orb_false_iff in Hy. destruct Hy as [Hxy Hy].
  rewrite existsb_app. apply andb_true_iff. split; [|auto].
  apply negb_true_iff, orb_false_iff. split.
  - now apply negb_true_iff.
  - simpl. now rewrite Hxy.
Qed.

Context {A : Type}.

Lemma existsb_map_filter (g : B -> bool) (f : A -> B) (p : A -> bool)
  (l : list A) :
  existsb g (map f (List.filter p l)) = true -> existsb g (map f l) = true.
Proof.
  induction l as [|a l IH]; simpl; [auto|].
  destruct (p a); simpl; intros H.
  - apply orb_true_iff in H. apply orb_true_iff. tauto.
  - apply orb_true_iff. auto.
Qed.

Lemma distinctb_map_filter (f : A -> B) (p : A -> bool) (l : list A) :
  distinctb eqb (map f l) = true ->
  distinctb eqb (map f (List.filter p l)) = true.
Proof.
  induction l as [|a l IH]; simpl; [auto|]. intros H.
  apply andb_true_iff in H. destruct H as [Ha Hl].
  destruct (p a); simpl; [|auto].
  apply andb_true_iff. split; [|auto].
  apply negb_true_iff, not_true_is_false. intros Hex.
  apply existsb_map_filter in Hex. rewrite Hex in Ha. discriminate.
Qed.

Lemma existsb_non_null_filter (g : B -> bool) (f : A -> option B)
  (p : A -> bool) (l : list A) :
  existsb g (non_null (map f (List.filter p l))) = true ->
  existsb g (non_null (map f l)) = true.
Proof.
  induction l as [|a l IH]; simpl; [auto|].
  destruct (p a); simpl; destruct (f a); simpl; intros H; auto.
  - apply orb_true_iff in H. apply orb_true_iff. tauto.
  - apply orb_true_iff. auto.
Qed.

Lemma distinctb_non_null_filter (f : A -> option B) (p : A -> bool)
  (l : list A) :
  distinctb eqb (non_null (map f l)) = true ->
  distinctb eqb (non_null (map f (List.filter p l))) = true.
Proof.
  induction l as [|a l IH]; simpl; [auto|].
  destruct (p a); simpl; destruct (f a) as [b|]; simpl; intros H; auto.
  - apply andb_true_iff in H. destruct H as [Hb Hl].
    apply andb_true_iff. split; [|auto].
    apply negb_true_iff, not_true_is_false. intros Hex.
    apply existsb_non_null_filter in Hex. rewrite Hex in Hb. discriminate.
  - apply andb_true_iff in H. tauto.
Qed.

End Distinct.

Lemma non_null_app {A : Type} (l1 l2 : list (option A)) :
  non_null (l1 ++ l2) = non_null l1 ++ non_null l2.
Proof.
  induction l1 as [|[a|] l1 IH]; simpl; congruence.
Qed.

Lemma forallb_weaken {A : Type} (p q : A -> bool) (l : list A) :
  (forall a, In a l -> p a = true -> q a = true) ->
  forallb p l = true -> forallb q l = true.
Proof.
  rewrite !forallb_forall. auto.
Qed.

Lemma forallb_filter {A : Type} (p q : A -> bool) (l : list A) :
  forallb p l = true -> forallb p (List.filter q l) = true.
Proof.
  rewrite !forallb_forall. intros H a Ha. apply filter_In in Ha.
  apply H. tauto.
Qed.

Lemma has_user_iff (d : Database) (uid : Z) :
  has_user d uid = true
  <-> exists u, In u (user_table d) /\ User.id u = uid.
Proof.
  unfold has_user. rewrite existsb_exists.
  split; intros [u [Hu He]]; exists u; split; auto;
    now apply Z.eqb_eq.
Qed.

Lemma has_conversation_iff (d : Database) (cid : Z) :
  has_conversation d cid = true
  <-> exists c, In c (conversation_table d) /\ Conversation.id c = cid.
Proof.
  unfold has_conversation. rewrite existsb_exists.
  split; intros [c [Hc He]]; exists c; split; auto;
    now apply Z.eqb_eq.
Qed.

Lemma has_message_iff (d : Database) (mid : Z) :
  has_message d mid = true
  <-> exists m, In m (message_table d) /\ Message.id m = mid.
Proof.
  unfold has_message. rewrite existsb_exists.
  split; intros [m [Hm He]]; exists m; split; auto;
    now apply Z.eqb_eq.
Qed.

Lemma foreign_keys_ok_iff (d : Database) :
  foreign_keys_ok d = true <-> referential_integrity d.
Proof.
  unfold foreign_keys_ok, referential_integrity.
  rewrite andb_true_iff, !forallb_forall.
  split; intros [Hc Hm]; split.
  - intros c Hin. apply has_user_iff. auto.
  - intros m Hin. apply has_conversation_iff. auto.
  - intros c Hin. apply has_user_iff. auto.
  - intros m Hin. apply has_conversation_iff. auto.
Qed.

Lemma constraints_ok_split (d : Database) :
  constraints_ok d = true
  <-> (distinctb Z.eqb (map User.id (user_table d)) = true
       /\ distinctb Z.eqb (map Conversation.id (conversation_table d)) = true
       /\ distinctb Z.eqb (map Message.id (message_table d)) = true)
      /\ (distinctb String.eqb (map User.username (user_table d)) = true
          /\ distinctb String.eqb (non_null (map User.email (user_table d)))
             = true)
      /\ foreign_keys_ok d = true.
Proof.
  unfold constraints_ok, primary_keys_ok, unique_ok.
  rewrite !andb_true_iff. tauto.
Qed.

Lemma existsb_eqb_map {A : Type} (pk_of : A -> Z) (pk : Z) (table : list A) :
  existsb (fun k => k =? pk) (map pk_of table)
  = existsb (fun r => pk_of r =? pk) table.
Proof.
  induction table as [|r table IH]; simpl; congruence.
Qed.

Lemma next_id_distinct {A : Type} (pk_of : A -> Z) (table : list A)
  (row : A) :
  pk_of row = next_id (map pk_of table) ->
  distinctb Z.eqb (map pk_of table) = true ->
  distinctb Z.eqb (map pk_of (table ++ [row])) = true.
Proof.
  intros Hpk Hd. rewrite map_app. simpl. apply distinctb_snoc; [assumption|].
  rewrite Hpk, existsb_eqb_map. apply next_id_not_used.
Qed.

Lemma find_snoc {A : Type} (p : A -> bool) (l : list A) (y : A) :
  existsb p l = false -> p y = true -> find p (l ++ [y]) = Some y.
Proof.
  induction l as [|x l IH]; simpl; intros Hl Hy.
  - now rewrite Hy.
  - apply orb_false_iff in Hl. destruct Hl as [Hx Hl]. rewrite Hx. auto.
Qed.

Lemma has_user_snoc (d : Database) (u : User.t) (cs : list Conversation.t)
  (ms : list Message.t) (uid : Z) :
  has_user d uid = true ->
  has_user (mkDatabase (user_table d ++ [u]) cs ms) uid = true.
Proof.
  unfold has_user. simpl. rewrite existsb_app. intros ->. reflexivity.
Qed.

Lemma has_conversation_snoc (d : Database) (us : list User.t)
  (c : Conversation.t) (ms : list Message.t) (cid : Z) :
  has_conversation d cid = true ->
  has_conversation (mkDatabase us (conversation_table d ++ [c]) ms) cid
  = true.
Proof.
  unfold has_conversation. simpl. rewrite existsb_app. intros ->. reflexivity.
Qed.

(** ** Adding rows *)

Lemma constraints_ok_add_user (d : Database) (u : User.t) :
  constraints_ok d = true ->
  User.id u = next_id (map User.id (user_table d)) ->
  username_taken d (User.username u) = false ->
  email_taken d (User.email u) = false ->
  constraints_ok
    (mkDatabase (user_table d ++ [u]) (conversation_table d)
                (message_table d)) = true.
Proof.
  intros Hok Hid Hname Hmail.
  apply constraints_ok_split in Hok.
  destruct Hok as [[Hu [Hc Hm]] [[Hn He] Hfk]].
  apply constraints_ok_split. simpl. repeat split; try assumption.
  - now apply next_id_distinct.
  - rewrite map_app. simpl. now apply distinctb_snoc.
  - rewrite map_app, non_null_app. simpl.
    unfold email_taken in Hmail. destruct (User.email u) as [e|]; simpl.
    + now apply distinctb_snoc.
    + now rewrite app_nil_r.
  - unfold foreign_keys_ok in *. simpl.
    apply andb_true_iff in Hfk. destruct Hfk as [Hfc Hfm].
    apply andb_true_iff. split.
    + eapply forallb_weaken; [|exact Hfc]. intros c _.
      apply has_user_snoc.
    + exact Hfm.
Qed.

Lemma constraints_ok_add_conversation (d : Database) (c : Conversation.t) :
  constraints_ok d = true ->
  Conversation.id c = next_id (map Conversation.id (conversation_table d)) ->
  has_user d (Conversation.user_id c) = true ->
  constraints_ok
    (mkDatabase (user_table d) (conversation_table d ++ [c])
                (message_table d)) = true.
Proof.
  intros Hok Hid Huser.
  apply constraints_ok_split in Hok.
  destruct Hok as [[Hu [Hc Hm]] [[Hn He] Hfk]].
  apply constraints_ok_split. simpl. repeat split; try assumption.
  - now apply next_id_distinct.
  - unfold foreign_keys_ok in *. simpl.
    apply andb_true_iff in Hfk. destruct Hfk as [Hfc Hfm].
    apply andb_true_iff. split.
    + rewrite forallb_app. simpl. unfold has_user in *. simpl.
      rewrite Hfc, Huser. reflexivity.
    + eapply forallb_weaken; [|exact Hfm]. intros m _.
      apply has_conversation_snoc.
Qed.

Lemma session_get_appended {A : Type} (table : Database -> list A)
  (pk_of : A -> Z) (rows : list A) (row : A) (s : Session) :
  database s = transaction s ->
  table (transaction s) = rows ++ [row] ->
  pk_of row = next_id (map pk_of rows) ->
  session_get table pk_of (pk_of row) s = Ok (Some row, s).
Proof.
  intros Hclean Htable Hpk.
  rewrite session_get_run by now apply session_autoflush_clean.
  rewrite Htable, find_snoc; [reflexivity | |apply Z.eqb_refl].
  rewrite Hpk. apply next_id_not_used.
Qed.

Lemma orm_add_user_run (s : Session) (username : string)
  (password email : option string) (default_preset : string)
  (preferences : PyValue) (now : datetime) :
  let user :=
    User.mk (next_id (map User.id (user_table (transaction s))))
            username password email default_preset now (Some now)
            (if truthy preferences then preferences else PyDict []) in
  let d :=
    mkDatabase (user_table (transaction s) ++ [user])
               (conversation_table (transaction s))
               (message_table (transaction s)) in
  orm_add_user username password email default_preset preferences now s
  = if constraints_ok d
    then Ok (user, mkSession d d (S (commits s)))
    else Raise IntegrityError.
Proof.
  unfold orm_add_user, bind, session_add_user, session_commit, ret, py_or.
  simpl. destruct (constraints_ok _); reflexivity.
Qed.

Lemma orm_add_conversation_run (s : Session) (user : User.t)
  (title : option string) (hidden : bool) (now : datetime) :
  let conversation :=
    Conversation.mk
      (next_id (map Conversation.id (conversation_table (transaction s))))
      (User.id user) title now now false in
  let d :=
    mkDatabase (user_table (transaction s))
               (conversation_table (transaction s) ++ [conversation])
               (message_table (transaction s)) in
  orm_add_conversation user title hidden now s
  = if constraints_ok d
    then Ok (conversation, mkSession d d (S (commits s)))
    else Raise IntegrityError.
Proof.
  unfold orm_add_conversation, bind, session_add_conversation,
    session_commit, ret.
  simpl. destruct (constraints_ok _); reflexivity.
Qed.

(** C5, as stated, fails when the preferences supplied are None (the
    default of the parameter): [preferences or {}] stores the empty
    mapping, so the fetched User's preferences differ from the value
    supplied. *)
Lemma orm_add_user_none_preferences :
  exists user s',
    orm_add_user "alice" None None "" PyNone 10 empty_session = Ok (user, s')
    /\ exists fetched,
         orm_get_user (User.id user) s' = Ok (Some fetched, s')
         /\ User.preferences fetched <> PyNone.
Proof.
  do 2 eexists. split; [reflexivity|].
  eexists. split; [reflexivity | discriminate].
Qed.

(** C5 (amended). Whenever [orm_add_user] returns a User, [orm_get_user]
    on that User's id returns that same User, whose username, password,
    email and default_preset equal the values supplied, and whose
    preferences equal the value supplied when that value is truthy and
    the empty mapping otherwise.  [orm_add_user] does return on a stored
    state satisfying the declared constraints when the username and the
    email are not already taken. *)
Theorem orm_add_user_then_get (s : Session) (username : string)
  (password email : option string) (default_preset : string)
  (preferences : PyValue) (now : datetime) :
  (forall user s',
     orm_add_user username password email default_preset preferences now s
     = Ok (user, s') ->
     orm_get_user (User.id user) s' = Ok (Some user, s')
     /\ User.username user = username
     /\ User.password user = password
     /\ User.email user = email
     /\ User.default_preset user = default_preset
     /\ User.preferences user
        = (if truthy preferences then preferences else PyDict []))
  /\ (constraints_ok (transaction s) = true ->
      username_taken (transaction s) username = false ->
      email_taken (transaction s) email = false ->
      exists user s',
        orm_add_user username password email default_preset preferences now s
        = Ok (user, s')).
Proof.
  pose proof (orm_add_user_run s username password email default_preset
                preferences now) as Hrun.
  cbv zeta in Hrun. split.
  - intros user s' H. rewrite Hrun in H.
    destruct (constraints_ok _); [|discriminate].
    inversion H; subst. split; [|simpl; auto 6].
    unfold orm_get_user.
    apply (session_get_appended user_table User.id
             (user_table (transaction s))); reflexivity.
  - intros Hok Hname Hmail.
    rewrite constraints_ok_add_user in Hrun by (simpl; auto).
    eauto.
Qed.

Lemma orm_add_user_then_get_witness :
  exists user s',
    orm_add_user "carol" None (Some "carol@example.org"%string) "" PyNone 40
                 sample_session
    = Ok (user, s')
    /\ orm_get_user (User.id user) s' = Ok (Some user, s')
    /\ User.username user = "carol"%string
    /\ User.preferences user = PyDict [].
Proof.
  destruct (orm_add_user_then_get sample_session "carol" None
              (Some "carol@example.org"%string) "" PyNone 40)
    as [Hget Hruns].
  destruct (Hruns eq_refl eq_refl eq_refl) as [user [s' Hrun]].
  exists user, s'. split; [exact Hrun|].
  destruct (Hget user s' Hrun) as [H1 [H2 [_ [_ [_ H6]]]]].
  split; [exact H1|]. split; [exact H2 | exact H6].
Defined.

(** C10. Whatever the [hidden] argument, a Conversation that
    [orm_add_conversation(user, title, hidden)] creates and returns has
    [hidden] false, in the returned object and in the stored row; and the
    method does return when the constraints hold and the user exists. *)
Theorem orm_add_conversation_hidden_false (s : Session) (user : User.t)
  (title : option string) (hidden : bool) (now : datetime) :
  (forall conversation s',
     orm_add_conversation user title hidden now s = Ok (conversation, s') ->
     Conversation.hidden conversation = false
     /\ In conversation (conversation_table (database s')))
  /\ (constraints_ok (transaction s) = true ->
      has_user (transaction s) (User.id user) = true ->
      exists conversation s',
        orm_add_conversation user title hidden now s
        = Ok (conversation, s')).
Proof.
  pose proof (orm_add_conversation_run s user title hidden now) as Hrun.
  cbv zeta in Hrun. split.
  - intros conversation s' H. rewrite Hrun in H.
    destruct (constraints_ok _); [|discriminate].
    inversion H; subst. split; [reflexivity|].
    simpl. apply in_or_app. right. now left.
  - intros Hok Huser.
    rewrite constraints_ok_add_conversation in Hrun by (simpl; auto).
    eauto.
Qed.

Lemma orm_add_conversation_hidden_false_witness :
  exists conversation s',
    orm_add_conversation alice None true 50 sample_session
    = Ok (conversation, s')
    /\ Conversation.hidden conversation = false.
Proof.
  destruct (orm_add_conversation_hidden_false sample_session alice None true 50)
    as [Hfalse Hruns].
  destruct (Hruns eq_refl eq_refl) as [conversation [s' Hrun]].
  exists conversation, s'. split; [exact Hrun|].
  exact (proj1 (Hfalse conversation s' Hrun)).
Defined.

(** ** Updating a row in place *)

Section UpdateRow.

Context {A : Type} (pk_of : A -> Z).

Lemma update_row_keys (pk : Z) (set : A -> A) (table : list A) :
  (forall r, pk_of (set r) = pk_of r) ->
  map pk_of (update_row pk_of pk set table) = map pk_of table.
Proof.
  intros Hpk. unfold update_row. rewrite map_map. apply map_ext_in.
  intros r _. destruct (Z.eqb_spec (pk_of r) pk); auto.
Qed.

Lemma update_row_In (pk : Z) (set : A -> A) (table : list A) (r : A) :
  In r table -> pk_of r = pk -> In (set r) (update_row pk_of pk set table).
Proof.
  intros Hin Hpk. unfold update_row. apply in_map_iff. exists r.
  rewrite <- Hpk, Z.eqb_refl. auto.
Qed.

Lemma update_row_inv (pk : Z) (set : A -> A) (table : list A) (r' : A) :
  In r' (update_row pk_of pk set table) ->
  (exists r, In r table /\ pk_of r = pk /\ r' = set r)
  \/ (In r' table /\ pk_of r' <> pk).
Proof.
  unfold update_row. rewrite in_map_iff. intros [r [Heq Hin]].
  destruct (Z.eqb_spec (pk_of r) pk); subst; eauto.
Qed.

Lemma update_row_other (pk : Z) (set : A -> A) (table : list A) (r : A) :
  In r table -> pk_of r <> pk -> In r (update_row pk_of pk set table).
Proof.
  intros Hin Hne. unfold update_row. apply in_map_iff. exists r.
  destruct (Z.eqb_spec (pk_of r) pk); [contradiction | auto].
Qed.

Lemma find_by_key (pk : Z) (table : list A) :
  existsb (fun r => pk_of r =? pk) table = true ->
  exists row,
    find (fun r => pk_of r =? pk) table = Some row
    /\ In row table /\ pk_of row = pk.
Proof.
  intros H. destruct (find (fun r => pk_of r =? pk) table) as [row|] eqn:Hf.
  - apply find_some in Hf. destruct Hf as [Hin Heq].
    exists row. repeat split; auto. now apply Z.eqb_eq.
  - apply existsb_exists in H. destruct H as [r [Hr Heq]].
    rewrite (find_none _ _ Hf r Hr) in Heq. discriminate.
Qed.

Lemma existsb_by_keys (pk : Z) (t1 t2 : list A) :
  map pk_of t1 = map pk_of t2 ->
  existsb (fun r => pk_of r =? pk) t1 = existsb (fun r => pk_of r =? pk) t2.
Proof.
  intros H.
  rewrite <- (existsb_eqb_map pk_of pk t1), <- (existsb_eqb_map pk_of pk t2).
  now rewrite H.
Qed.

End UpdateRow.

(** ** Adding a message *)

Lemma constraints_ok_insert_message (d : Database) (m : Message.t) :
  constraints_ok d = true ->
  Message.id m = next_id (map Message.id (message_table d)) ->
  has_conversation d (Message.conversation_id m) = true ->
  constraints_ok
    (mkDatabase (user_table d) (conversation_table d)
                (message_table d ++ [m])) = true.
Proof.
  intros Hok Hid Hconv.
  apply constraints_ok_split in Hok.
  destruct Hok as [[Hu [Hc Hm]] [[Hn He] Hfk]].
  apply constraints_ok_split.
  cbn [user_table conversation_table message_table].
  repeat split; try assumption.
  - now apply next_id_distinct.
  - unfold foreign_keys_ok in *.
    cbn [user_table conversation_table message_table].
    apply andb_true_iff in Hfk. destruct Hfk as [Hfc Hfm].
    apply andb_true_iff. split; [exact Hfc|].
    rewrite forallb_app. apply andb_true_iff. split; [exact Hfm|].
    cbn [forallb]. unfold has_conversation in *.
    cbn [conversation_table]. now rewrite Hconv.
Qed.

(** Setting updated_time on the rows with one key keeps the constraints. *)
Lemma constraints_ok_touch_conversation (d : Database) (pk : Z)
  (now : datetime) :
  constraints_ok d = true ->
  constraints_ok
    (mkDatabase (user_table d)
       (update_row Conversation.id pk
          (fun row =>
             fold_left Conversation.setattr [Conversation.kw_updated_time now]
                       row)
          (conversation_table d))
       (message_table d)) = true.
Proof.
  intros Hok.
  apply constraints_ok_split in Hok.
  destruct Hok as [[Hu [Hc Hm]] [[Hn He] Hfk]].
  assert (Hkeys :
            map Conversation.id
              (update_row Conversation.id pk
                 (fun row =>
                    fold_left Conversation.setattr
                              [Conversation.kw_updated_time now] row)
                 (conversation_table d))
            = map Conversation.id (conversation_table d))
    by (apply update_row_keys; reflexivity).
  apply constraints_ok_split.
  cbn [user_table conversation_table message_table].
  repeat split; try assumption.
  - now rewrite Hkeys.
  - unfold foreign_keys_ok in *.
    apply andb_true_iff in Hfk. destruct Hfk as [Hfc Hfm].
    rewrite forallb_forall in Hfc. rewrite forallb_forall in Hfm.
    cbn [user_table conversation_table message_table].
    apply andb_true_iff. split; apply forallb_forall.
    + intros c Hin. apply update_row_inv in Hin.
      destruct Hin as [[r [Hr [_ ->]]]|[Hin _]];
        [apply (Hfc _ Hr) | apply (Hfc _ Hin)].
    + intros m' Hin. unfold has_conversation.
      cbn [user_table conversation_table message_table].
      rewrite (existsb_by_keys Conversation.id _ _ _ Hkeys).
      apply (Hfm _ Hin).
Qed.

(** What [orm_add_message] does before its commit, step by step. *)
Lemma orm_add_message_pending_steps (s : Session)
  (conversation : Conversation.t) (role message message_type : string)
  (message_metadata : option string) (provider model preset : string)
  (now : datetime) :
  let m :=
    Message.mk (next_id (map Message.id (message_table (transaction s))))
               (Conversation.id conversation) role message message_type
               message_metadata model provider preset now in
  let added :=
    mkSession (database s)
      (mkDatabase (user_table (transaction s))
                  (conversation_table (transaction s))
                  (message_table (transaction s) ++ [m]))
      (commits s) in
  orm_add_message_pending conversation role message message_type
    message_metadata provider model preset now s
  = match session_autoflush added with
    | Raise e => Raise e
    | Ok _ =>
        match find (fun r => Conversation.id r
                             =? Conversation.id conversation)
                   (conversation_table (transaction s)) with
        | Some row =>
            Ok (m, mkSession (database s)
                     (mkDatabase (user_table (transaction s))
                        (update_row Conversation.id (Conversation.id row)
                           (fun row =>
                              fold_left Conversation.setattr
                                [Conversation.kw_updated_time now] row)
                           (conversation_table (transaction s)))
                        (message_table (transaction s) ++ [m]))
                     (commits s))
        | None =>
            if in_int64 (Conversation.id conversation)
            then Raise AttributeError
            else Raise OverflowError
        end
    end.
Proof.
  cbv zeta.
  unfold orm_add_message_pending, orm_get_conversation, session_get, bind,
    session_add_message, ret, raise.
  cbn [transaction database commits conversation_table user_table
       message_table Message.setattr].
  match goal with
  | |- context [session_autoflush ?s1] =>
      unfold session_autoflush; cbn [transaction database];
      destruct (Database_eqb (database s) _);
      [|destruct (constraints_ok _); [|reflexivity]]
  end.
  all: cbn [transaction database commits conversation_table user_table
            message_table].
  all: destruct (find _ (conversation_table (transaction s)))
         as [row|] eqn:Hfind;
    [|destruct (in_int64 _); reflexivity].
  all: unfold session_update_conversation.
  all: cbn [transaction database commits conversation_table user_table
            message_table forallb Conversation.bindable andb].
  all: apply find_some in Hfind; destruct Hfind as [Hin _].
  all: rewrite (proj2 (held_iff Conversation.eqb row _ conversation_eqb_eq)
                  Hin).
  all: reflexivity.
Qed.

Lemma orm_add_message_pending_run (s : Session)
  (conversation : Conversation.t) (role message message_type : string)
  (message_metadata : option string) (provider model preset : string)
  (now : datetime) :
  constraints_ok (transaction s) = true ->
  has_conversation (transaction s) (Conversation.id conversation) = true ->
  exists row,
    In row (conversation_table (transaction s))
    /\ Conversation.id row = Conversation.id conversation
    /\ let m :=
         Message.mk (next_id (map Message.id (message_table (transaction s))))
                    (Conversation.id conversation) role message message_type
                    message_metadata model provider preset now in
       orm_add_message_pending conversation role message message_type
         message_metadata provider model preset now s
       = Ok (m, mkSession (database s)
                  (mkDatabase (user_table (transaction s))
                     (update_row Conversation.id (Conversation.id row)
                        (fun row =>
                           fold_left Conversation.setattr
                             [Conversation.kw_updated_time now] row)
                        (conversation_table (transaction s)))
                     (message_table (transaction s) ++ [m]))
                  (commits s)).
Proof.
  intros Hok Hhas.
  destruct (find_by_key Conversation.id _ _ Hhas) as [row [Hfind [Hin Hid]]].
  exists row. repeat split; try assumption.
  pose proof (orm_add_message_pending_steps s conversation role message
                message_type message_metadata provider model preset now)
    as Hsteps.
  cbv zeta in Hsteps. rewrite Hsteps.
  rewrite session_autoflush_valid.
  - now rewrite Hfind.
  - cbn [transaction]. apply constraints_ok_insert_message;
      [assumption | reflexivity | exact Hhas].
Qed.

(** C3. For every conversation that exists in a state satisfying the
    declared constraints, [orm_add_message] returns a Message whose
    created_time is the time [now] of the call.  Everything it does before
    its commit leaves the database and the commit count untouched while
    the open transaction already holds both the new Message and the parent
    Conversation with updated_time [now]; the one commit then makes that
    transaction state the database, so the stored Message and the stored
    Conversation's updated_time (equal to the Message's created_time)
    appear together. *)
Theorem orm_add_message_updates_conversation (s : Session)
  (conversation : Conversation.t) (role message message_type : string)
  (message_metadata : option string) (provider model preset : string)
  (now : datetime) :
  constraints_ok (transaction s) = true ->
  has_conversation (transaction s) (Conversation.id conversation) = true ->
  exists m pending s',
    orm_add_message_pending conversation role message message_type
      message_metadata provider model preset now s = Ok (m, pending)
    /\ database pending = database s
    /\ commits pending = commits s
    /\ orm_add_message conversation role message message_type
         message_metadata provider model preset now s = Ok (m, s')
    /\ database s' = transaction pending
    /\ committed_once s s'
    /\ Message.created_time m = now
    /\ Message.conversation_id m = Conversation.id conversation
    /\ In m (message_table (database s'))
    /\ has_conversation (database s') (Conversation.id conversation) = true
    /\ forall c,
         In c (conversation_table (database s')) ->
         Conversation.id c = Conversation.id conversation ->
         Conversation.updated_time c = Message.created_time m.
Proof.
  intros Hok Hhas.
  destruct (orm_add_message_pending_run s conversation role message
              message_type message_metadata provider model preset now
              Hok Hhas)
    as [row [Hin [Hid Hrun]]].
  cbv zeta in Hrun.
  do 3 eexists. split; [exact Hrun|].
  split; [reflexivity|]. split; [reflexivity|].
  split.
  { unfold orm_add_message, bind. rewrite Hrun.
    unfold session_commit. cbn [transaction].
    pose proof (constraints_ok_touch_conversation _ (Conversation.id row) now
                  (constraints_ok_insert_message (transaction s)
                     (Message.mk
                        (next_id (map Message.id
                                      (message_table (transaction s))))
                        (Conversation.id conversation) role message
                        message_type message_metadata model provider preset
                        now)
                     Hok eq_refl Hhas)) as Hvalid.
    cbn [user_table conversation_table message_table] in Hvalid.
    rewrite Hvalid. reflexivity. }
  cbn [database transaction commits message_table conversation_table].
  split; [reflexivity|]. split; [split; reflexivity|].
  split; [reflexivity|]. split; [reflexivity|].
  split; [apply in_or_app; right; now left|].
  split.
  - unfold has_conversation. cbn [conversation_table].
    rewrite (existsb_by_keys Conversation.id (Conversation.id conversation)
               _ (conversation_table (transaction s))).
    + exact Hhas.
    + apply update_row_keys. reflexivity.
  - intros c Hc Hcid. apply update_row_inv in Hc.
    destruct Hc as [[r [_ [_ ->]]]|[_ Hne]]; [reflexivity | congruence].
Qed.

Lemma orm_add_message_updates_conversation_witness :
  exists m s',
    orm_add_message chat_a "user" "again" "content" None "chat" "gpt" "" 60
                    sample_session = Ok (m, s')
    /\ Message.created_time m = 60
    /\ forall c,
         In c (conversation_table (database s')) ->
         Conversation.id c = Conversation.id chat_a ->
         Conversation.updated_time c = Message.created_time m.
Proof.
  destruct (orm_add_message_updates_conversation sample_session chat_a
              "user" "again" "content" None "chat" "gpt" "" 60
              eq_refl eq_refl)
    as [m [pending [s' H]]].
  exists m, s'. repeat split; apply H.
Defined.

(** ** Deleting rows *)

Lemma constraints_ok_delete_message (mid : Z) (d : Database) :
  constraints_ok d = true -> constraints_ok (delete_message_row mid d) = true.
Proof.
  intros Hok. apply constraints_ok_split in Hok.
  destruct Hok as [[Hu [Hc Hm]] [[Hn He] Hfk]].
  apply constraints_ok_split. unfold delete_message_row.
  cbn [user_table conversation_table message_table].
  repeat split; try assumption.
  - now apply distinctb_map_filter.
  - unfold foreign_keys_ok in *.
    cbn [user_table conversation_table message_table].
    apply andb_true_iff in Hfk. destruct Hfk as [Hfc Hfm].
    apply andb_true_iff. split; [exact Hfc|].
    apply forallb_filter. exact Hfm.
Qed.

Lemma delete_conversation_row_tables (cid : Z) (d : Database) :
  constraints_ok d = true ->
  user_table (delete_conversation_row cid d) = user_table d
  /\ conversation_table (delete_conversation_row cid d)
     = List.filter (fun c => negb (Conversation.id c =? cid))
                   (conversation_table d)
  /\ message_table (delete_conversation_row cid d)
     = List.filter (fun m => negb (Message.conversation_id m =? cid))
                   (message_table d).
Proof.
  intros Hok. unfold delete_conversation_row.
  destruct (has_conversation d cid) eqn:Hhas; [auto|].
  apply constraints_ok_split in Hok. destruct Hok as [_ [_ Hfk]].
  apply foreign_keys_ok_iff in Hfk. destruct Hfk as [_ Hfm].
  split; [reflexivity|]. split; symmetry; apply forallb_filter_id,
    forallb_forall.
  - intros c Hc. apply negb_true_iff, not_true_is_false. intros Heq.
    apply Z.eqb_eq in Heq.
    assert (has_conversation d cid = true)
      by (apply has_conversation_iff; eauto).
    congruence.
  - intros m Hm. apply negb_true_iff, not_true_is_false. intros Heq.
    apply Z.eqb_eq in Heq. destruct (Hfm m Hm) as [c [Hc Hid]].
    assert (has_conversation d cid = true)
      by (apply has_conversation_iff; exists c; split; congruence).
    congruence.
Qed.

Lemma constraints_ok_delete_conversation (cid : Z) (d : Database) :
  constraints_ok d = true ->
  constraints_ok (delete_conversation_row cid d) = true.
Proof.
  intros Hok.
  destruct (delete_conversation_row_tables cid d Hok) as [Eu [Ec Em]].
  apply constraints_ok_split in Hok.
  destruct Hok as [[Hu [Hc Hm]] [[Hn He] Hfk]].
  apply constraints_ok_split. rewrite Eu, Ec, Em.
  repeat split; try assumption; try now apply distinctb_map_filter.
  apply foreign_keys_ok_iff. apply foreign_keys_ok_iff in Hfk.
  destruct Hfk as [Hfc Hfm]. split; rewrite ?Eu, ?Ec, ?Em.
  - intros c Hin. apply filter_In in Hin. apply Hfc. tauto.
  - intros m Hin. apply filter_In in Hin. destruct Hin as [Hin Hne].
    destruct (Hfm m Hin) as [c [Hc' Hid]]. exists c. split; [|exact Hid].
    apply filter_In. split; [assumption|]. now rewrite Hid.
Qed.

Lemma delete_user_row_tables (uid : Z) (d : Database) :
  constraints_ok d = true ->
  (forall u, In u (user_table (delete_user_row uid d))
             <-> In u (user_table d) /\ User.id u <> uid)
  /\ (forall c, In c (conversation_table (delete_user_row uid d))
                <-> In c (conversation_table d)
                    /\ Conversation.user_id c <> uid)
  /\ (forall m, In m (message_table (delete_user_row uid d))
                <-> In m (message_table d)
                    /\ forall c, In c (conversation_table d) ->
                                 Conversation.id c = Message.conversation_id m ->
                                 Conversation.user_id c <> uid).
Proof.
  intros Hok. apply constraints_ok_split in Hok. destruct Hok as [_ [_ Hfk]].
  apply foreign_keys_ok_iff in Hfk. destruct Hfk as [Hfc Hfm].
  unfold delete_user_row. destruct (has_user d uid) eqn:Hhas.
  - cbn [user_table conversation_table message_table]. repeat split.
    + apply filter_In in H. tauto.
    + apply filter_In in H. destruct H as [_ H].
      apply negb_true_iff in H. now apply Z.eqb_neq.
    + intros [Hin Hne]. apply filter_In. split; [assumption|].
      apply negb_true_iff. now apply Z.eqb_neq.
    + apply filter_In in H. tauto.
    + apply filter_In in H. destruct H as [_ H].
      apply negb_true_iff in H. now apply Z.eqb_neq.
    + intros [Hin Hne]. apply filter_In. split; [assumption|].
      apply negb_true_iff. now apply Z.eqb_neq.
    + apply filter_In in H. tauto.
    + apply filter_In in H. destruct H as [_ H].
      apply negb_true_iff in H. intros c Hc Hid Hu.
      assert (Hex : existsb
                      (fun c => Conversation.id c =? Message.conversation_id m)
                      (List.filter (fun c => Conversation.user_id c =? uid)
                                   (conversation_table d)) = true).
      { apply existsb_exists. exists c. split.
        - apply filter_In. split; [assumption | now apply Z.eqb_eq].
        - now apply Z.eqb_eq. }
      congruence.
    + intros [Hin Hall]. apply filter_In. split; [assumption|].
      apply negb_true_iff, not_true_is_false. intros Hex.
      apply existsb_exists in Hex. destruct Hex as [c [Hc Hid]].
      apply filter_In in Hc. destruct Hc as [Hc Hu].
      apply Z.eqb_eq in Hid, Hu. exact (Hall c Hc Hid Hu).
  - assert (Hnone : forall u, In u (user_table d) -> User.id u <> uid).
    { intros u Hu Hid.
      assert (has_user d uid = true) by (apply has_user_iff; eauto).
      congruence. }
    repeat split; try tauto.
    + now apply Hnone.
    + destruct (Hfc c H) as [u [Hu Hid]]. rewrite <- Hid. now apply Hnone.
    + intros c Hc _. destruct (Hfc c Hc) as [u [Hu Hid]].
      rewrite <- Hid. now apply Hnone.
Qed.

Lemma delete_user_row_integrity (uid : Z) (d : Database) :
  constraints_ok d = true -> referential_integrity (delete_user_row uid d).
Proof.
  intros Hok. destruct (delete_user_row_tables uid d Hok) as [Tu [Tc Tm]].
  apply constraints_ok_split in Hok. destruct Hok as [_ [_ Hfk]].
  apply foreign_keys_ok_iff in Hfk. destruct Hfk as [Hfc Hfm]. split.
  - intros c Hc. apply Tc in Hc. destruct Hc as [Hc Hne].
    destruct (Hfc c Hc) as [u [Hu Hid]]. exists u. split; [|exact Hid].
    apply Tu. split; [assumption | congruence].
  - intros m Hm. apply Tm in Hm. destruct Hm as [Hm Hall].
    destruct (Hfm m Hm) as [c [Hc Hid]]. exists c. split; [|exact Hid].
    apply Tc. split; [assumption | now apply Hall].
Qed.

Lemma constraints_ok_delete_user (uid : Z) (d : Database) :
  constraints_ok d = true -> constraints_ok (delete_user_row uid d) = true.
Proof.
  intros Hok. pose proof (delete_user_row_integrity uid d Hok) as Hint.
  apply foreign_keys_ok_iff in Hint.
  apply constraints_ok_split. split; [|split; [|exact Hint]];
    apply constraints_ok_split in Hok;
    destruct Hok as [[Hu [Hc Hm]] [[Hn He] _]];
    unfold delete_user_row; destruct (has_user d uid);
    cbn [user_table conversation_table message_table];
    repeat split; try assumption;
    try now apply distinctb_map_filter.
  now apply distinctb_non_null_filter.
Qed.

Lemma orm_delete_user_run (s : Session) (user : User.t) :
  let d := delete_user_row (User.id user) (transaction s) in
  orm_delete_user user s
  = if existsb (User.eqb user) (user_table (transaction s))
    then if constraints_ok d
         then Ok (Some user, mkSession d d (S (commits s)))
         else Raise IntegrityError
    else Raise InvalidRequestError.
Proof.
  unfold orm_delete_user, bind, session_delete, session_commit, ret.
  destruct (existsb _ _); [|reflexivity].
  cbn [transaction database commits].
  destruct (constraints_ok _); reflexivity.
Qed.

Lemma orm_delete_conversation_run (s : Session)
  (conversation : Conversation.t) :
  let d := delete_conversation_row (Conversation.id conversation)
                                   (transaction s) in
  orm_delete_conversation conversation s
  = if existsb (Conversation.eqb conversation)
               (conversation_table (transaction s))
    then if constraints_ok d
         then Ok (None, mkSession d d (S (commits s)))
         else Raise IntegrityError
    else Raise InvalidRequestError.
Proof.
  unfold orm_delete_conversation, bind, session_delete, session_commit, ret.
  destruct (existsb _ _); [|reflexivity].
  cbn [transaction database commits].
  destruct (constraints_ok _); reflexivity.
Qed.

Lemma orm_delete_message_run (s : Session) (message : Message.t) :
  let d := delete_message_row (Message.id message) (transaction s) in
  orm_delete_message message s
  = if existsb (Message.eqb message) (message_table (transaction s))
    then if constraints_ok d
         then Ok (None, mkSession d d (S (commits s)))
         else Raise IntegrityError
    else Raise InvalidRequestError.
Proof.
  unfold orm_delete_message, bind, session_delete, session_commit, ret.
  destruct (existsb _ _); [|reflexivity].
  cbn [transaction database commits].
  destruct (constraints_ok _); reflexivity.
Qed.

Lemma orm_delete_user_stored (s : Session) (user : User.t) :
  constraints_ok (transaction s) = true ->
  In user (user_table (transaction s)) ->
  orm_delete_user user s
  = Ok (Some user,
        mkSession (delete_user_row (User.id user) (transaction s))
                  (delete_user_row (User.id user) (transaction s))
                  (S (commits s))).
Proof.
  intros Hok Hin. pose proof (orm_delete_user_run s user) as Hrun.
  cbv zeta in Hrun.
  rewrite (proj2 (held_iff User.eqb user _ user_eqb_eq) Hin) in Hrun.
  now rewrite constraints_ok_delete_user in Hrun.
Qed.

Lemma orm_delete_conversation_stored (s : Session)
  (conversation : Conversation.t) :
  constraints_ok (transaction s) = true ->
  In conversation (conversation_table (transaction s)) ->
  orm_delete_conversation conversation s
  = Ok (None,
        mkSession
          (delete_conversation_row (Conversation.id conversation)
                                   (transaction s))
          (delete_conversation_row (Conversation.id conversation)
                                   (transaction s))
          (S (commits s))).
Proof.
  intros Hok Hin.
  pose proof (orm_delete_conversation_run s conversation) as Hrun.
  cbv zeta in Hrun.
  rewrite (proj2 (held_iff Conversation.eqb conversation _
                    conversation_eqb_eq) Hin) in Hrun.
  now rewrite constraints_ok_delete_conversation in Hrun.
Qed.

Lemma orm_delete_message_stored (s : Session) (message : Message.t) :
  constraints_ok (transaction s) = true ->
  In message (message_table (transaction s)) ->
  orm_delete_message message s
  = Ok (None,
        mkSession (delete_message_row (Message.id message) (transaction s))
                  (delete_message_row (Message.id message) (transaction s))
                  (S (commits s))).
Proof.
  intros Hok Hin. pose proof (orm_delete_message_run s message) as Hrun.
  cbv zeta in Hrun.
  rewrite (proj2 (held_iff Message.eqb message _ message_eqb_eq) Hin)
    in Hrun.
  now rewrite constraints_ok_delete_message in Hrun.
Qed.

Lemma delete_conversation_row_members (cid : Z) (d : Database) :
  constraints_ok d = true ->
  user_table (delete_conversation_row cid d) = user_table d
  /\ (forall c, In c (conversation_table (delete_conversation_row cid d))
                <-> In c (conversation_table d) /\ Conversation.id c <> cid)
  /\ (forall m, In m (message_table (delete_conversation_row cid d))
                <-> In m (message_table d)
                    /\ Message.conversation_id m <> cid).
Proof.
  intros Hok.
  destruct (delete_conversation_row_tables cid d Hok) as [Eu [Ec Em]].
  split; [exact Eu|]. split.
  - intros c. rewrite Ec, filter_In, negb_true_iff, Z.eqb_neq. reflexivity.
  - intros m. rewrite Em, filter_In, negb_true_iff, Z.eqb_neq. reflexivity.
Qed.

Lemma delete_message_row_members (mid : Z) (d : Database) (m : Message.t) :
  In m (message_table (delete_message_row mid d))
  <-> In m (message_table d) /\ Message.id m <> mid.
Proof.
  unfold delete_message_row. cbn [message_table].
  rewrite filter_In, negb_true_iff, Z.eqb_neq. reflexivity.
Qed.

(** C4. On every stored state (one satisfying the declared constraints),
    deleting a stored User with [orm_delete_user] succeeds and leaves a
    database that holds exactly the other Users, exactly the
    Conversations of other Users, and exactly the Messages that do not
    belong to a Conversation of the deleted User.  Deleting a stored
    Conversation leaves exactly the other Conversations and the Messages
    of other Conversations, and deleting a stored Message leaves exactly
    the other Messages.  After each of the three delete operations every
    remaining Conversation references an existing User and every
    remaining Message references an existing Conversation. *)
Theorem delete_cascades_and_keeps_integrity (s : Session) (user : User.t)
  (conversation : Conversation.t) (message : Message.t) :
  constraints_ok (transaction s) = true ->
  (In user (user_table (transaction s)) ->
   exists s',
     orm_delete_user user s = Ok (Some user, s')
     /\ (forall u, In u (user_table (database s'))
                   <-> In u (user_table (transaction s))
                       /\ User.id u <> User.id user)
     /\ (forall c, In c (conversation_table (database s'))
                   <-> In c (conversation_table (transaction s))
                       /\ Conversation.user_id c <> User.id user)
     /\ (forall m, In m (message_table (database s'))
                   <-> In m (message_table (transaction s))
                       /\ forall c,
                            In c (conversation_table (transaction s)) ->
                            Conversation.id c = Message.conversation_id m ->
                            Conversation.user_id c <> User.id user)
     /\ referential_integrity (database s'))
  /\ (In conversation (conversation_table (transaction s)) ->
      exists s',
        orm_delete_conversation conversation s = Ok (None, s')
        /\ user_table (database s') = user_table (transaction s)
        /\ (forall c, In c (conversation_table (database s'))
                      <-> In c (conversation_table (transaction s))
                          /\ Conversation.id c
                             <> Conversation.id conversation)
        /\ (forall m, In m (message_table (database s'))
                      <-> In m (message_table (transaction s))
                          /\ Message.conversation_id m
                             <> Conversation.id conversation)
        /\ referential_integrity (database s'))
  /\ (In message (message_table (transaction s)) ->
      exists s',
        orm_delete_message message s = Ok (None, s')
        /\ user_table (database s') = user_table (transaction s)
        /\ conversation_table (database s')
           = conversation_table (transaction s)
        /\ (forall m, In m (message_table (database s'))
                      <-> In m (message_table (transaction s))
                          /\ Message.id m <> Message.id message)
        /\ referential_integrity (database s')).
Proof.
  intros Hok. split; [|split]; intros Hin.
  - eexists. split; [now apply orm_delete_user_stored|]. cbn [database].
    destruct (delete_user_row_tables (User.id user) _ Hok) as [Tu [Tc Tm]].
    split; [exact Tu|]. split; [exact Tc|]. split; [exact Tm|].
    now apply delete_user_row_integrity.
  - eexists. split; [now apply orm_delete_conversation_stored|].
    cbn [database].
    destruct (delete_conversation_row_members
                (Conversation.id conversation) _ Hok) as [Tu [Tc Tm]].
    split; [exact Tu|]. split; [exact Tc|]. split; [exact Tm|].
    pose proof (constraints_ok_delete_conversation
                  (Conversation.id conversation) _ Hok) as Hok'.
    apply constraints_ok_split in Hok'. now apply foreign_keys_ok_iff.
  - eexists. split; [now apply orm_delete_message_stored|]. cbn [database].
    split; [reflexivity|]. split; [reflexivity|].
    split; [apply delete_message_row_members|].
    pose proof (constraints_ok_delete_message (Message.id message) _ Hok)
      as Hok'.
    apply constraints_ok_split in Hok'. now apply foreign_keys_ok_iff.
Qed.

Lemma delete_cascades_and_keeps_integrity_witness :
  (exists s',
     orm_delete_user alice sample_session = Ok (Some alice, s')
     /\ (forall c, In c (conversation_table (database s'))
                   <-> In c (conversation_table (transaction sample_session))
                       /\ Conversation.user_id c <> User.id alice)
     /\ referential_integrity (database s'))
  /\ (exists s',
        orm_delete_conversation chat_a sample_session = Ok (None, s')
        /\ referential_integrity (database s'))
  /\ (exists s',
        orm_delete_message hello sample_session = Ok (None, s')
        /\ referential_integrity (database s')).
Proof.
  destruct (delete_cascades_and_keeps_integrity sample_session alice chat_a
              hello eq_refl)
    as [Hu [Hc Hm]].
  split; [|split].
  - destruct (Hu (or_introl eq_refl))
      as [s' [Hrun [_ [Tc [_ Hint]]]]].
    exists s'. split; [exact Hrun|]. split; [exact Tc | exact Hint].
  - destruct (Hc (or_introl eq_refl)) as [s' [Hrun [_ [_ [_ Hint]]]]].
    exists s'. split; [exact Hrun | exact Hint].
  - destruct (Hm (or_introl eq_refl)) as [s' [Hrun [_ [_ [_ Hint]]]]].
    exists s'. split; [exact Hrun | exact Hint].
Defined.

(** ** Every write commits *)

Lemma commit_inv {A : Type} (m : M A) (s : Session) (a : A) (s' : Session) :
  (x <- m ;; session_commit ;; ret x) s = Ok (a, s') ->
  exists s1,
    m s = Ok (a, s1)
    /\ s' = mkSession (transaction s1) (transaction s1) (S (commits s1)).
Proof.
  unfold bind, session_commit, ret. destruct (m s) as [[x s1]|]; [|discriminate].
  destruct (constraints_ok (transaction s1)); [|discriminate].
  intros H. inversion H; subst. eauto.
Qed.

Lemma commit_inv_const {A B : Type} (m : M A) (b : B) (s : Session) (r : B)
  (s' : Session) :
  (m ;; session_commit ;; ret b) s = Ok (r, s') ->
  exists a s1,
    m s = Ok (a, s1) /\ r = b
    /\ s' = mkSession (transaction s1) (transaction s1) (S (commits s1)).
Proof.
  unfold bind, session_commit, ret. destruct (m s) as [[x s1]|]; [|discriminate].
  destruct (constraints_ok (transaction s1)); [|discriminate].
  intros H. inversion H; subst. eauto.
Qed.

Lemma session_update_user_commits (user : User.t) (kwargs : list User.kwarg)
  (s s1 : Session) (r : unit) :
  session_update_user user kwargs s = Ok (r, s1) -> commits s1 = commits s.
Proof.
  unfold session_update_user.
  destruct (existsb _ _); [destruct (forallb _ _); [|discriminate]|];
    intros H; inversion H; reflexivity.
Qed.

Lemma session_update_conversation_commits (conversation : Conversation.t)
  (kwargs : list Conversation.kwarg) (s s1 : Session) (r : unit) :
  session_update_conversation conversation kwargs s = Ok (r, s1) ->
  commits s1 = commits s.
Proof.
  unfold session_update_conversation.
  destruct (existsb _ _); [destruct (forallb _ _); [|discriminate]|];
    intros H; inversion H; reflexivity.
Qed.

Lemma session_update_message_commits (message : Message.t)
  (kwargs : list Message.kwarg) (s s1 : Session) (r : unit) :
  session_update_message message kwargs s = Ok (r, s1) ->
  commits s1 = commits s.
Proof.
  unfold session_update_message.
  destruct (existsb _ _); [destruct (forallb _ _); [|discriminate]|];
    intros H; inversion H; reflexivity.
Qed.

Lemma session_delete_commits {A : Type} (eqb : A -> A -> bool)
  (table : Database -> list A) (pk_of : A -> Z)
  (delete_row : Z -> Database -> Database) (obj : A) (s s1 : Session)
  (r : unit) :
  session_delete eqb table pk_of delete_row obj s = Ok (r, s1) ->
  commits s1 = commits s.
Proof.
  unfold session_delete. destruct (existsb _ _); [|discriminate].
  intros H. inversion H. reflexivity.
Qed.

Lemma orm_add_message_pending_commits (s s1 : Session)
  (conversation : Conversation.t) (role message message_type : string)
  (message_metadata : option string) (provider model preset : string)
  (now : datetime) (m : Message.t) :
  orm_add_message_pending conversation role message message_type
    message_metadata provider model preset now s = Ok (m, s1) ->
  commits s1 = commits s.
Proof.
  pose proof (orm_add_message_pending_steps s conversation role message
                message_type message_metadata provider model preset now)
    as Hsteps.
  cbv zeta in Hsteps. rewrite Hsteps.
  destruct (session_autoflush _) as [_|]; [|discriminate].
  destruct (find _ _) as [row|]; [|destruct (in_int64 _); discriminate].
  intros H. inversion H. reflexivity.
Qed.

(** Each of the nine write methods, when it returns, has committed: the
    database equals the transaction state and one more commit was made. *)
Lemma writes_commit_once (s s' : Session) :
  (forall username password email default_preset preferences now r,
     orm_add_user username password email default_preset preferences now s
     = Ok (r, s') -> committed_once s s')
  /\ (forall user title hidden now r,
        orm_add_conversation user title hidden now s = Ok (r, s') ->
        committed_once s s')
  /\ (forall conversation role message message_type message_metadata
             provider model preset now r,
        orm_add_message conversation role message message_type
          message_metadata provider model preset now s = Ok (r, s') ->
        committed_once s s')
  /\ (forall user kwargs r,
        orm_edit_user user kwargs s = Ok (r, s') -> committed_once s s')
  /\ (forall conversation kwargs r,
        orm_edit_conversation conversation kwargs s = Ok (r, s') ->
        committed_once s s')
  /\ (forall message kwargs r,
        orm_edit_message message kwargs s = Ok (r, s') ->
        committed_once s s')
  /\ (forall user r,
        orm_delete_user user s = Ok (r, s') -> committed_once s s')
  /\ (forall conversation r,
        orm_delete_conversation conversation s = Ok (r, s') ->
        committed_once s s')
  /\ (forall message r,
        orm_delete_message message s = Ok (r, s') -> committed_once s s').
Proof.
  unfold committed_once. repeat split; intros.
  all: try (unfold orm_edit_message in H;
            destruct (existsb Message.names_message kwargs);
            [discriminate|]).
  all: first
    [ apply commit_inv in H; destruct H as [s1 [Hm ->]]
    | apply commit_inv_const in H; destruct H as [a [s1 [Hm [_ ->]]]] ].
  all: cbn [database transaction commits]; try reflexivity; f_equal.
  all: try (inversion Hm; reflexivity).
  all: first
    [ now apply orm_add_message_pending_commits in Hm
    | now apply session_update_user_commits in Hm
    | now apply session_update_conversation_commits in Hm
    | now apply session_update_message_commits in Hm
    | now apply session_delete_commits in Hm ].
Qed.

(** C6 (the code at the failing inputs). [orm_delete_conversation] and
    [orm_delete_message] delete and commit, but have no [return]
    statement: they evaluate to None, not to the entity they removed. *)
Theorem orm_delete_conversation_message_return_none :
  orm_delete_conversation chat_a sample_session
  = Ok (None,
        mkSession (mkDatabase [alice; bob] [chat_b] [other])
                  (mkDatabase [alice; bob] [chat_b] [other]) 1)
  /\ orm_delete_message hello sample_session
     = Ok (None,
           mkSession
             (mkDatabase [alice; bob] [chat_a; chat_b] [reply; other])
             (mkDatabase [alice; bob] [chat_a; chat_b] [reply; other]) 1).
Proof.
  split; reflexivity.
Qed.

(** ** Editing *)

Section SetAttr.

Context {E K C : Type}.
Context (key : K -> C) (setattr : E -> K -> E) (getattr : C -> E -> K).

Hypothesis getattr_setattr :
  forall e k, getattr (key k) (setattr e k) = k.
Hypothesis getattr_setattr_other :
  forall e k c, key k <> c -> getattr c (setattr e k) = getattr c e.



End SetAttr.







Lemma orm_edit_user_held (s : Session) (user : User.t)
  (kwargs : list User.kwarg) :
  In user (user_table (transaction s)) ->
  let edited := fold_left User.setattr kwargs user in
  let d :=
    mkDatabase
      (update_row User.id (User.id user)
                  (fun row => fold_left User.setattr kwargs row)
                  (user_table (transaction s)))
      (conversation_table (transaction s)) (message_table (transaction s)) in
  orm_edit_user user kwargs s
  = if forallb User.bindable kwargs
    then if constraints_ok d
         then Ok (edited, mkSession d d (S (commits s)))
         else Raise IntegrityError
    else Raise OverflowError.
Proof.
  intros Hin. cbv zeta.
  unfold orm_edit_user, bind, session_update_user, session_commit, ret.
  rewrite (proj2 (held_iff User.eqb user _ user_eqb_eq) Hin).
  destruct (forallb _ _); [|reflexivity].
  cbn [transaction database commits].
  destruct (constraints_ok _); reflexivity.
Qed.

Lemma orm_edit_conversation_held (s : Session) (conversation : Conversation.t)
  (kwargs : list Conversation.kwarg) :
  In conversation (conversation_table (transaction s)) ->
  let edited := fold_left Conversation.setattr kwargs conversation in
  let d :=
    mkDatabase
      (user_table (transaction s))
      (update_row Conversation.id (Conversation.id conversation)
                  (fun row => fold_left Conversation.setattr kwargs row)
                  (conversation_table (transaction s)))
      (message_table (transaction s)) in
  orm_edit_conversation conversation kwargs s
  = if forallb Conversation.bindable kwargs
    then if constraints_ok d
         then Ok (edited, mkSession d d (S (commits s)))
         else Raise IntegrityError
    else Raise OverflowError.
Proof.
  intros Hin. cbv zeta.
  unfold orm_edit_conversation, bind, session_update_conversation,
    session_commit, ret.
  rewrite (proj2 (held_iff Conversation.eqb conversation _
                    conversation_eqb_eq) Hin).
  destruct (forallb _ _); [|reflexivity].
  cbn [transaction database commits].
  destruct (constraints_ok _); reflexivity.
Qed.

Lemma orm_edit_message_held (s : Session) (message : Message.t)
  (kwargs : list Message.kwarg) :
  existsb Message.names_message kwargs = false ->
  In message (message_table (transaction s)) ->
  let edited := fold_left Message.setattr kwargs message in
  let d :=
    mkDatabase
      (user_table (transaction s)) (conversation_table (transaction s))
      (update_row Message.id (Message.id message)
                  (fun row => fold_left Message.setattr kwargs row)
                  (message_table (transaction s))) in
  orm_edit_message message kwargs s
  = if forallb Message.bindable kwargs
    then if constraints_ok d
         then Ok (edited, mkSession d d (S (commits s)))
         else Raise IntegrityError
    else Raise OverflowError.
Proof.
  intros Hkw Hin. cbv zeta.
  unfold orm_edit_message. rewrite Hkw.
  unfold bind, session_update_message, session_commit, ret.
  rewrite (proj2 (held_iff Message.eqb message _ message_eqb_eq) Hin).
  destruct (forallb _ _); [|reflexivity].
  cbn [transaction database commits].
  destruct (constraints_ok _); reflexivity.
Qed.




(** [orm_edit_message] cannot set the [message] column: given the
    keyword [message], whatever else it is given, the call raises
    TypeError, because that keyword collides with the method's own first
    parameter. *)
Theorem orm_edit_message_keyword_message_raises (s : Session)
  (message : Message.t) (kwargs : list Message.kwarg) (body : string) :
  In (Message.kw_message body) kwargs ->
  orm_edit_message message kwargs s = Raise TypeError.
Proof.
  intros Hin. unfold orm_edit_message.
  assert (Hkw : existsb Message.names_message kwargs = true).
  { apply existsb_exists. exists (Message.kw_message body). now split. }
  now rewrite Hkw.
Qed.

Lemma orm_edit_message_keyword_message_raises_witness :
  orm_edit_message hello [Message.kw_role "system"; Message.kw_message "bye"]
                   sample_session
  = Raise TypeError.
Proof.
  apply (orm_edit_message_keyword_message_raises sample_session hello
           [Message.kw_role "system"; Message.kw_message "bye"] "bye").
  right. left. reflexivity.
Defined.

(** ** The methods on the sample data *)

Example orm_get_users_sample :
  orm_get_users (Some 1%nat) (Some 1%nat) sample_session
  = Ok ([bob], sample_session).
Proof. reflexivity. Qed.

Example orm_get_conversations_sample :
  orm_get_conversations bob None None true sample_session
  = Ok ([chat_b], sample_session).
Proof. reflexivity. Qed.

Example orm_get_messages_sample :
  orm_get_messages chat_a None None (Some 1) sample_session
  = Ok ([hello], sample_session).
Proof. reflexivity. Qed.

Example orm_get_messages_window_sample :
  orm_get_messages chat_a (Some 1%nat) (Some 1%nat) None sample_session
  = Ok ([reply], sample_session).
Proof. reflexivity. Qed.

Example orm_get_messages_window_and_target_sample :
  orm_get_messages chat_a (Some 5%nat) None (Some 2) sample_session
  = Raise InvalidRequestError.
Proof. reflexivity. Qed.

Example orm_get_last_message_sample :
  orm_get_last_message chat_a sample_session = Ok (Some reply, sample_session).
Proof. reflexivity. Qed.

Example orm_add_user_duplicate_sample :
  orm_add_user "alice" None None "" PyNone 40 sample_session
  = Raise IntegrityError.
Proof. reflexivity. Qed.

Example orm_add_message_missing_conversation_sample :
  orm_add_message (Conversation.mk 9 1 None 0 0 false) "user" "x" "content"
                  None "chat" "gpt" "" 60 sample_session
  = Raise IntegrityError.
Proof. reflexivity. Qed.

Example orm_delete_user_sample :
  orm_delete_user alice sample_session
  = Ok (Some alice,
        mkSession (mkDatabase [bob] [chat_b] [other])
                  (mkDatabase [bob] [chat_b] [other]) 1).
Proof. reflexivity. Qed.

(** * Further properties of the Manager *)

(** ** Listings *)

(** With no [target_id], or with [target_id=0], [orm_get_messages] applies
    no cap: it returns the offset/limit window of an arrangement, in
    ascending id order, of exactly the conversation's stored Messages
    (each as many times as it is stored). *)
Theorem orm_get_messages_untargeted (s : Session)
  (conversation : Conversation.t) (limit offset : option nat) :
  exists mine,
    Permutation mine
      (List.filter
         (fun m => Message.conversation_id m =? Conversation.id conversation)
         (message_table (transaction s)))
    /\ (forall m, In m mine <->
                  In m (message_table (transaction s))
                  /\ Message.conversation_id m = Conversation.id conversation)
    /\ StronglySorted (fun a b => Message.id a <= Message.id b) mine
    /\ orm_get_messages conversation limit offset None s
       = Ok (Query.window limit offset mine, s)
    /\ orm_get_messages conversation limit offset (Some 0) s
       = Ok (Query.window limit offset mine, s).
Proof.
  exists (sort_by (asc Message.id)
            (List.filter
               (fun m => Message.conversation_id m
                         =? Conversation.id conversation)
               (message_table (transaction s)))).
  split; [apply sort_by_perm|].
  split; [|split; [|split]].
  - intros m. rewrite sort_by_In, filter_In, Z.eqb_eq. reflexivity.
  - apply ordered_by_asc, sort_by_ordered;
      [apply asc_total | apply asc_trans].
  - now apply orm_get_messages_run_uncapped.
  - now apply orm_get_messages_run_uncapped.
Qed.

(** With a non-zero [target_id] and a [limit] or an [offset] that is not
    None, [orm_get_messages] raises InvalidRequestError: the target
    [filter] is added to a query that already has LIMIT or OFFSET. *)
Theorem orm_get_messages_window_and_target_raises (s : Session)
  (conversation : Conversation.t) (limit offset : option nat) (n : Z) :
  n <> 0 ->
  limit <> None \/ offset <> None ->
  orm_get_messages conversation limit offset (Some n) s
  = Raise InvalidRequestError.
Proof.
  intros Hn Hwindow. now apply orm_get_messages_run_capped_window.
Qed.

Lemma orm_get_messages_window_and_target_raises_witness :
  orm_get_messages chat_a (Some 10%nat) None (Some 2) sample_session
  = Raise InvalidRequestError
  /\ orm_get_messages chat_a None (Some 1%nat) (Some 2) sample_session
     = Raise InvalidRequestError.
Proof.
  assert (H2 : 2 <> 0) by lia.
  split.
  - apply (orm_get_messages_window_and_target_raises sample_session chat_a
             (Some 10%nat) None 2 H2).
    left. discriminate.
  - apply (orm_get_messages_window_and_target_raises sample_session chat_a
             None (Some 1%nat) 2 H2).
    right. discriminate.
Defined.

Lemma window_length {A : Type} (lim off : option nat) (l : list A) :
  List.length (Query.window lim off l)
  = let remaining :=
      match off with
      | Some k => (List.length l - k)%nat
      | None => List.length l
      end in
    match lim with
    | Some n => Nat.min n remaining
    | None => remaining
    end.
Proof.
  unfold Query.window.
  destruct lim as [n|], off as [k|]; cbv zeta;
    rewrite ?length_firstn, ?length_skipn; reflexivity.
Qed.

(** A page of [orm_get_users] holds as many Users as remain after the
    offset, up to the limit: none when the offset reaches the number of
    stored Users or the limit is 0, and all of them without limit and
    offset. *)
Theorem orm_get_users_page_size (s : Session) (limit offset : option nat) :
  exists page,
    orm_get_users limit offset s = Ok (page, s)
    /\ List.length page
       = let remaining :=
           match offset with
           | Some k => (List.length (user_table (transaction s)) - k)%nat
           | None => List.length (user_table (transaction s))
           end in
         match limit with
         | Some n => Nat.min n remaining
         | None => remaining
         end.
Proof.
  rewrite orm_get_users_run. eexists. split; [reflexivity|].
  rewrite window_length.
  now rewrite (Permutation_length (sort_by_perm _ _)).
Qed.

Lemma window_pages {A : Type} (n k : nat) (l : list A) :
  Query.window (Some n) (Some k) l ++ Query.window None (Some (k + n)%nat) l
  = Query.window None (Some k) l.
Proof.
  unfold Query.window. rewrite Nat.add_comm, <- skipn_skipn.
  apply firstn_skipn.
Qed.

(** Pages tile the listing: the page of [limit] Users at [offset],
    followed by everything from [offset + limit] on, is everything from
    [offset] on; the same holds for a user's Conversations in descending
    order and for a conversation's Messages. *)
Theorem listing_pages_tile (s : Session) (user : User.t)
  (conversation : Conversation.t) (limit offset : nat) :
  (exists page rest,
     orm_get_users (Some limit) (Some offset) s = Ok (page, s)
     /\ orm_get_users None (Some (offset + limit)%nat) s = Ok (rest, s)
     /\ orm_get_users None (Some offset) s = Ok (page ++ rest, s))
  /\ (exists page rest,
        orm_get_conversations user (Some limit) (Some offset) true s
        = Ok (page, s)
        /\ orm_get_conversations user None (Some (offset + limit)%nat) true s
           = Ok (rest, s)
        /\ orm_get_conversations user None (Some offset) true s
           = Ok (page ++ rest, s))
  /\ (exists page rest,
        orm_get_messages conversation (Some limit) (Some offset) None s
        = Ok (page, s)
        /\ orm_get_messages conversation None (Some (offset + limit)%nat)
             None s = Ok (rest, s)
        /\ orm_get_messages conversation None (Some offset) None s
           = Ok (page ++ rest, s)).
Proof.
  split; [|split]; do 2 eexists.
  - rewrite !orm_get_users_run.
    split; [reflexivity|]. split; [reflexivity|].
    now rewrite window_pages.
  - rewrite !orm_get_conversations_run_desc.
    split; [reflexivity|]. split; [reflexivity|].
    now rewrite window_pages.
  - rewrite !orm_get_messages_run_uncapped by reflexivity.
    split; [reflexivity|]. split; [reflexivity|].
    now rewrite window_pages.
Qed.

(** ** Fetching by primary key *)

Lemma find_by_key_spec {A : Type} (pk_of : A -> Z) (pk : Z) (table : list A) :
  match find (fun r => pk_of r =? pk) table with
  | Some row => In row table /\ pk_of row = pk
  | None => forall row, In row table -> pk_of row <> pk
  end.
Proof.
  destruct (find _ table) as [row|] eqn:Hf.
  - apply find_some in Hf. destruct Hf as [Hin Heq].
    split; [assumption | now apply Z.eqb_eq].
  - intros row Hin Heq. pose proof (find_none _ _ Hf row Hin) as Hne.
    apply Z.eqb_neq in Hne. contradiction.
Qed.

Lemma find_by_key_missing {A : Type} (pk_of : A -> Z) (pk : Z)
  (table : list A) :
  existsb (fun r => pk_of r =? pk) table = false ->
  find (fun r => pk_of r =? pk) table = None.
Proof.
  intros H. destruct (find _ table) as [row|] eqn:Hf; [|reflexivity].
  apply find_some in Hf. destruct Hf as [Hin Heq].
  assert (existsb (fun r => pk_of r =? pk) table = true)
    by (apply existsb_exists; eauto).
  congruence.
Qed.

Lemma session_get_outcomes {A : Type} (table : Database -> list A)
  (pk_of : A -> Z) (pk : Z) (s : Session) :
  database s = transaction s ->
  (existsb (fun r => pk_of r =? pk) (table (transaction s)) = true ->
   exists row,
     session_get table pk_of pk s = Ok (Some row, s)
     /\ In row (table (transaction s)) /\ pk_of row = pk)
  /\ (existsb (fun r => pk_of r =? pk) (table (transaction s)) = false ->
      session_get table pk_of pk s
      = if in_int64 pk then Ok (None, s) else Raise OverflowError).
Proof.
  intros Hclean.
  rewrite session_get_run by now apply session_autoflush_clean.
  split; intros H.
  - destruct (find_by_key pk_of _ _ H) as [row [Hfind [Hin Hpk]]].
    exists row. now rewrite Hfind.
  - now rewrite find_by_key_missing.
Qed.

(** On a session with nothing pending, [orm_get_user],
    [orm_get_conversation] and [orm_get_message] return a stored row
    whose id is the one asked for when there is one; when there is none
    they return None for an id within the 64-bit integer range and raise
    OverflowError for an id outside it.  The session is left as it was. *)
Theorem orm_get_by_id (s : Session) (pk : Z) :
  database s = transaction s ->
  ((has_user (transaction s) pk = true ->
    exists u, orm_get_user pk s = Ok (Some u, s)
              /\ In u (user_table (transaction s)) /\ User.id u = pk)
   /\ (has_user (transaction s) pk = false ->
       orm_get_user pk s
       = if in_int64 pk then Ok (None, s) else Raise OverflowError))
  /\ ((has_conversation (transaction s) pk = true ->
       exists c, orm_get_conversation pk s = Ok (Some c, s)
                 /\ In c (conversation_table (transaction s))
                 /\ Conversation.id c = pk)
      /\ (has_conversation (transaction s) pk = false ->
          orm_get_conversation pk s
          = if in_int64 pk then Ok (None, s) else Raise OverflowError))
  /\ ((has_message (transaction s) pk = true ->
       exists m, orm_get_message pk s = Ok (Some m, s)
                 /\ In m (message_table (transaction s))
                 /\ Message.id m = pk)
      /\ (has_message (transaction s) pk = false ->
          orm_get_message pk s
          = if in_int64 pk then Ok (None, s) else Raise OverflowError)).
Proof.
  intros Hclean. split; [|split].
  - apply (session_get_outcomes user_table User.id pk s Hclean).
  - apply (session_get_outcomes conversation_table Conversation.id pk s
             Hclean).
  - apply (session_get_outcomes message_table Message.id pk s Hclean).
Qed.

Lemma orm_get_by_id_witness :
  (exists u, orm_get_user 1 sample_session = Ok (Some u, sample_session)
             /\ In u (user_table (transaction sample_session))
             /\ User.id u = 1)
  /\ orm_get_conversation 7 sample_session = Ok (None, sample_session)
  /\ orm_get_message (2 ^ 63) sample_session = Raise OverflowError.
Proof.
  split; [|split].
  - exact (proj1 (proj1 (orm_get_by_id sample_session 1 eq_refl)) eq_refl).
  - exact (proj2 (proj1 (proj2 (orm_get_by_id sample_session 7 eq_refl)))
             eq_refl).
  - exact (proj2 (proj2 (proj2 (orm_get_by_id sample_session (2 ^ 63)
                                  eq_refl)))
             eq_refl).
Defined.

(** ** Adding rows: what is stored, and what is refused *)

Lemma distinctb_snoc_dup {B : Type} (eqb : B -> B -> bool) (l : list B)
  (y : B) :
  existsb (fun x => eqb x y) l = true -> distinctb eqb (l ++ [y]) = false.
Proof.
  induction l as [|x l IH]; simpl; intros H; [discriminate|].
  apply andb_false_iff. destruct (eqb x y) eqn:Hxy.
  - left. apply negb_false_iff. rewrite existsb_app. simpl.
    rewrite Hxy. now rewrite orb_true_r.
  - right. apply IH. exact H.
Qed.

Lemma constraints_ok_unique_false (d : Database) :
  unique_ok d = false -> constraints_ok d = false.
Proof.
  unfold constraints_ok. intros ->.
  now rewrite andb_false_r.
Qed.

Lemma constraints_ok_foreign_false (d : Database) :
  foreign_keys_ok d = false -> constraints_ok d = false.
Proof.
  unfold constraints_ok. intros ->. now rewrite andb_false_r.
Qed.

(** [orm_add_user] with a username, or a non-None email, that a stored
    User already has raises IntegrityError (the [unique=True] columns). *)
Theorem orm_add_user_taken (s : Session) (username : string)
  (password email : option string) (default_preset : string)
  (preferences : PyValue) (now : datetime) :
  username_taken (transaction s) username = true
  \/ email_taken (transaction s) email = true ->
  orm_add_user username password email default_preset preferences now s
  = Raise IntegrityError.
Proof.
  intros Htaken.
  pose proof (orm_add_user_run s username password email default_preset
                preferences now) as Hrun.
  cbv zeta in Hrun. rewrite Hrun.
  rewrite constraints_ok_unique_false; [reflexivity|].
  unfold unique_ok. cbn [user_table]. apply andb_false_iff.
  destruct Htaken as [Hname|Hmail].
  - left. rewrite map_app. cbn [map User.username].
    now apply distinctb_snoc_dup.
  - right. rewrite map_app, non_null_app. cbn [map User.email].
    unfold email_taken in Hmail. destruct email as [e|]; [|discriminate].
    cbn [non_null]. now apply distinctb_snoc_dup.
Qed.

Lemma orm_add_user_taken_witness :
  orm_add_user "alice" None None "" PyNone 40 sample_session
  = Raise IntegrityError
  /\ orm_add_user "dave" None (Some "bob@example.org"%string) "" PyNone 40
                  sample_session
     = Raise IntegrityError.
Proof.
  split.
  - apply (orm_add_user_taken sample_session "alice" None None "" PyNone 40).
    left. reflexivity.
  - apply (orm_add_user_taken sample_session "dave" None
             (Some "bob@example.org"%string) "" PyNone 40).
    right. reflexivity.
Defined.

(** When [orm_add_user] returns, the stored Users are the previous ones
    followed by the new User, whose id is larger than every previous id
    and whose created_time and last_login_time are both the time of the
    call; Conversations and Messages are untouched. *)
Theorem orm_add_user_stores (s : Session) (username : string)
  (password email : option string) (default_preset : string)
  (preferences : PyValue) (now : datetime) (user : User.t) (s' : Session) :
  orm_add_user username password email default_preset preferences now s
  = Ok (user, s') ->
  user_table (database s') = user_table (transaction s) ++ [user]
  /\ conversation_table (database s') = conversation_table (transaction s)
  /\ message_table (database s') = message_table (transaction s)
  /\ (forall u, In u (user_table (transaction s)) -> User.id u < User.id user)
  /\ User.created_time user = now
  /\ User.last_login_time user = Some now.
Proof.
  intros H.
  pose proof (orm_add_user_run s username password email default_preset
                preferences now) as Hrun.
  cbv zeta in Hrun. rewrite Hrun in H.
  destruct (constraints_ok _); [|discriminate].
  inversion H; subst. cbn [database user_table conversation_table
                                    message_table User.id User.created_time
                                    User.last_login_time].
  repeat split; try reflexivity.
  intros u Hu. apply next_id_fresh. now apply in_map.
Qed.

Lemma orm_add_user_stores_witness :
  exists user s',
    orm_add_user "carol" None None "" PyNone 40 sample_session = Ok (user, s')
    /\ user_table (database s') = [alice; bob; user]
    /\ User.id user = 3.
Proof.
  do 2 eexists. split; [reflexivity|].
  split; [|reflexivity].
  exact (proj1 (orm_add_user_stores sample_session "carol" None None ""
                  PyNone 40 _ _ eq_refl)).
Defined.

(** [orm_add_conversation] for a user whose id no stored User has raises
    IntegrityError (the foreign key of [conversation.user_id]). *)
Theorem orm_add_conversation_unknown_user (s : Session) (user : User.t)
  (title : option string) (hidden : bool) (now : datetime) :
  has_user (transaction s) (User.id user) = false ->
  orm_add_conversation user title hidden now s = Raise IntegrityError.
Proof.
  intros Hmissing.
  pose proof (orm_add_conversation_run s user title hidden now) as Hrun.
  cbv zeta in Hrun. rewrite Hrun.
  rewrite constraints_ok_foreign_false; [reflexivity|].
  unfold foreign_keys_ok. cbn [conversation_table message_table].
  apply andb_false_iff. left. rewrite forallb_app. apply andb_false_iff.
  right. cbn [forallb Conversation.user_id]. unfold has_user in *.
  cbn [user_table]. now rewrite Hmissing.
Qed.

Lemma orm_add_conversation_unknown_user_witness :
  orm_add_conversation (User.mk 7 "ghost" None None "" 0 None PyNone) None
                       false 50 sample_session
  = Raise IntegrityError.
Proof.
  exact (orm_add_conversation_unknown_user sample_session
           (User.mk 7 "ghost" None None "" 0 None PyNone) None false 50
           eq_refl).
Defined.

(** When [orm_add_conversation] returns a Conversation,
    [orm_get_conversation] on its id returns it; it belongs to the user,
    carries the title given, and has created_time and updated_time both
    equal to the time of the call; the stored Conversations are the
    previous ones followed by it, and Users and Messages are untouched. *)
Theorem orm_add_conversation_then_get (s : Session) (user : User.t)
  (title : option string) (hidden : bool) (now : datetime)
  (conversation : Conversation.t) (s' : Session) :
  orm_add_conversation user title hidden now s = Ok (conversation, s') ->
  orm_get_conversation (Conversation.id conversation) s'
  = Ok (Some conversation, s')
  /\ Conversation.user_id conversation = User.id user
  /\ Conversation.title conversation = title
  /\ Conversation.created_time conversation = now
  /\ Conversation.updated_time conversation = now
  /\ conversation_table (database s')
     = conversation_table (transaction s) ++ [conversation]
  /\ user_table (database s') = user_table (transaction s)
  /\ message_table (database s') = message_table (transaction s).
Proof.
  intros H.
  pose proof (orm_add_conversation_run s user title hidden now) as Hrun.
  cbv zeta in Hrun. rewrite Hrun in H.
  destruct (constraints_ok _); [|discriminate].
  inversion H; subst. split; [|repeat split; reflexivity].
  unfold orm_get_conversation.
  apply (session_get_appended conversation_table Conversation.id
           (conversation_table (transaction s))); reflexivity.
Qed.

Lemma orm_add_conversation_then_get_witness :
  exists conversation s',
    orm_add_conversation bob (Some "second"%string) true 50 sample_session
    = Ok (conversation, s')
    /\ orm_get_conversation (Conversation.id conversation) s'
       = Ok (Some conversation, s').
Proof.
  do 2 eexists. split; [reflexivity|].
  exact (proj1 (orm_add_conversation_then_get sample_session bob
                  (Some "second"%string) true 50 _ _ eq_refl)).
Defined.

(** ** Adding a message: refusal, round trip and frame *)

Lemma pending_message_differs (d : Database) (us : list User.t)
  (cs : list Conversation.t) (m : Message.t) :
  Database_eqb d (mkDatabase us cs (message_table d ++ [m])) = false.
Proof.
  apply not_true_is_false. intros H. apply Database_eqb_eq in H.
  apply (f_equal (fun x => List.length (message_table x))) in H.
  cbn [message_table] in H. rewrite length_app in H. simpl in H. lia.
Qed.

(** [orm_add_message], on a session with nothing pending, for a
    conversation whose id (a 64-bit integer) no stored Conversation has,
    raises IntegrityError: loading the conversation flushes the pending
    Message, which the foreign key of [message.conversation_id] refuses. *)
Theorem orm_add_message_unknown_conversation (s : Session)
  (conversation : Conversation.t) (role message message_type : string)
  (message_metadata : option string) (provider model preset : string)
  (now : datetime) :
  database s = transaction s ->
  in_int64 (Conversation.id conversation) = true ->
  has_conversation (transaction s) (Conversation.id conversation) = false ->
  orm_add_message conversation role message message_type message_metadata
    provider model preset now s = Raise IntegrityError.
Proof.
  intros Hclean _ Hmissing.
  pose proof (orm_add_message_pending_steps s conversation role message
                message_type message_metadata provider model preset now)
    as Hsteps.
  cbv zeta in Hsteps. unfold orm_add_message, bind. rewrite Hsteps.
  unfold session_autoflush. cbn [database transaction].
  rewrite Hclean, pending_message_differs.
  rewrite constraints_ok_foreign_false; [reflexivity|].
  unfold foreign_keys_ok. cbn [conversation_table message_table].
  apply andb_false_iff. right. rewrite forallb_app. apply andb_false_iff.
  right. cbn [forallb Message.conversation_id]. unfold has_conversation in *.
  cbn [conversation_table]. now rewrite Hmissing.
Qed.

Lemma orm_add_message_unknown_conversation_witness :
  orm_add_message (Conversation.mk 9 1 None 0 0 false) "user" "x" "content"
                  None "chat" "gpt" "" 60 sample_session
  = Raise IntegrityError.
Proof.
  exact (orm_add_message_unknown_conversation sample_session
           (Conversation.mk 9 1 None 0 0 false) "user" "x" "content" None
           "chat" "gpt" "" 60 eq_refl eq_refl eq_refl).
Defined.

Lemma orm_add_message_inv (s : Session) (conversation : Conversation.t)
  (role message message_type : string) (message_metadata : option string)
  (provider model preset : string) (now : datetime) (m : Message.t)
  (s' : Session) :
  orm_add_message conversation role message message_type message_metadata
    provider model preset now s = Ok (m, s') ->
  exists row,
    In row (conversation_table (transaction s))
    /\ Conversation.id row = Conversation.id conversation
    /\ m = Message.mk (next_id (map Message.id (message_table (transaction s))))
                      (Conversation.id conversation) role message
                      message_type message_metadata model provider preset now
    /\ database s'
       = mkDatabase (user_table (transaction s))
           (update_row Conversation.id (Conversation.id row)
              (fun row =>
                 fold_left Conversation.setattr
                   [Conversation.kw_updated_time now] row)
              (conversation_table (transaction s)))
           (message_table (transaction s) ++ [m])
    /\ transaction s' = database s'.
Proof.
  intros H.
  pose proof (orm_add_message_pending_steps s conversation role message
                message_type message_metadata provider model preset now)
    as Hsteps.
  cbv zeta in Hsteps. unfold orm_add_message, bind in H.
  rewrite Hsteps in H.
  destruct (session_autoflush _) as [_|]; [|discriminate].
  destruct (find _ _) as [row|] eqn:Hfind;
    [|destruct (in_int64 _); discriminate].
  apply find_some in Hfind. destruct Hfind as [Hin Hid].
  apply Z.eqb_eq in Hid.
  unfold session_commit in H. cbn [transaction] in H.
  destruct (constraints_ok _); [|discriminate].
  inversion H; subst. exists row. repeat split; assumption.
Qed.

Lemma hd_sort_desc_greatest {A : Type} (col : A -> Z) (l : list A) (x : A) :
  In x l ->
  (forall y, In y l -> y = x \/ col y < col x) ->
  hd_error (sort_by (desc col) l) = Some x.
Proof.
  intros Hx Hmax.
  pose proof (sort_by_ordered (desc col) (desc_total col) (desc_trans col) l)
    as Hsorted.
  pose proof (sort_by_In (desc col) l) as Hin.
  destruct (sort_by (desc col) l) as [|h rest].
  - exfalso. apply (proj2 (Hin x)) in Hx. contradiction.
  - simpl. f_equal.
    destruct (Hmax h (proj1 (Hin h) (or_introl eq_refl))) as [->|Hlt];
      [reflexivity|].
    apply (proj2 (Hin x)) in Hx. destruct Hx as [->|Hrest]; [reflexivity|].
    inversion Hsorted as [|? ? _ Hall]; subst.
    rewrite Forall_forall in Hall. specialize (Hall _ Hrest).
    unfold desc in Hall. apply Z.leb_le in Hall. lia.
Qed.

(** When [orm_add_message] returns a Message, [orm_get_message] on its id
    returns it, [orm_get_last_message] on the conversation returns it, its
    id is larger than every previous Message id, and its columns are the
    values the call was given. *)
Theorem orm_add_message_then_get (s : Session) (conversation : Conversation.t)
  (role message message_type : string) (message_metadata : option string)
  (provider model preset : string) (now : datetime) (m : Message.t)
  (s' : Session) :
  orm_add_message conversation role message message_type message_metadata
    provider model preset now s = Ok (m, s') ->
  orm_get_message (Message.id m) s' = Ok (Some m, s')
  /\ orm_get_last_message conversation s' = Ok (Some m, s')
  /\ (forall m', In m' (message_table (transaction s)) ->
                 Message.id m' < Message.id m)
  /\ Message.conversation_id m = Conversation.id conversation
  /\ Message.role m = role
  /\ Message.message m = message
  /\ Message.message_type m = message_type
  /\ Message.message_metadata m = message_metadata
  /\ Message.provider m = provider
  /\ Message.model m = model
  /\ Message.preset m = preset.
Proof.
  intros H. apply orm_add_message_inv in H.
  destruct H as [row [Hrow [Hid [Hm [Hdb Htx]]]]].
  assert (Hfresh : forall m', In m' (message_table (transaction s)) ->
                              Message.id m' < Message.id m).
  { intros m' Hm'. rewrite Hm. cbn [Message.id].
    apply next_id_fresh. now apply in_map. }
  assert (Hmid : Message.id m
                 = next_id (map Message.id (message_table (transaction s))))
    by (now rewrite Hm).
  split; [|split; [|split; [exact Hfresh | rewrite Hm; repeat split]]].
  - unfold orm_get_message.
    apply (session_get_appended message_table Message.id
             (message_table (transaction s)));
      [now symmetry | now rewrite Htx, Hdb | exact Hmid].
  - rewrite orm_get_last_message_run, Htx, Hdb. cbn [message_table].
    rewrite (hd_sort_desc_greatest Message.id _ m); [reflexivity| |].
    + apply filter_In. split; [apply in_or_app; right; now left|].
      rewrite Hm. cbn [Message.conversation_id]. apply Z.eqb_refl.
    + intros y Hy. apply filter_In in Hy. destruct Hy as [Hy _].
      apply in_app_or in Hy. destruct Hy as [Hy|[<-|[]]]; auto.
Qed.

Lemma orm_add_message_then_get_witness :
  exists m s',
    orm_add_message chat_a "user" "again" "content" None "chat" "gpt" "" 60
                    sample_session = Ok (m, s')
    /\ orm_get_message (Message.id m) s' = Ok (Some m, s')
    /\ orm_get_last_message chat_a s' = Ok (Some m, s').
Proof.
  do 2 eexists. split; [reflexivity|].
  destruct (orm_add_message_then_get sample_session chat_a "user" "again"
              "content" None "chat" "gpt" "" 60 _ _ eq_refl)
    as [Hget [Hlast _]].
  split; [exact Hget | exact Hlast].
Defined.

(** When [orm_add_message] returns, the only stored rows that differ from
    before are the new Message and the parent Conversation, and of the
    parent only updated_time: Users are untouched, every previous Message
    is still stored, every other Conversation is still stored, and each
    stored Conversation agrees with a previous one of the same id on
    user_id, title, created_time and hidden. *)
Theorem orm_add_message_frame (s : Session) (conversation : Conversation.t)
  (role message message_type : string) (message_metadata : option string)
  (provider model preset : string) (now : datetime) (m : Message.t)
  (s' : Session) :
  orm_add_message conversation role message message_type message_metadata
    provider model preset now s = Ok (m, s') ->
  user_table (database s') = user_table (transaction s)
  /\ message_table (database s') = message_table (transaction s) ++ [m]
  /\ (forall c, In c (conversation_table (transaction s)) ->
                Conversation.id c <> Conversation.id conversation ->
                In c (conversation_table (database s')))
  /\ (forall c', In c' (conversation_table (database s')) ->
        exists c, In c (conversation_table (transaction s))
                  /\ Conversation.id c' = Conversation.id c
                  /\ Conversation.user_id c' = Conversation.user_id c
                  /\ Conversation.title c' = Conversation.title c
                  /\ Conversation.created_time c'
                     = Conversation.created_time c
                  /\ Conversation.hidden c' = Conversation.hidden c).
Proof.
  intros H. apply orm_add_message_inv in H.
  destruct H as [row [Hrow [Hid [Hm [Hdb Htx]]]]].
  rewrite Hdb. cbn [user_table conversation_table message_table].
  split; [reflexivity|]. split; [reflexivity|]. split.
  - intros c Hc Hne. apply update_row_other; [assumption | congruence].
  - intros c' Hc'. apply update_row_inv in Hc'.
    destruct Hc' as [[r [Hr [_ ->]]]|[Hc' _]].
    + exists r. repeat split; assumption.
    + exists c'. repeat split; assumption.
Qed.

Lemma orm_add_message_frame_witness :
  exists m s',
    orm_add_message chat_a "user" "again" "content" None "chat" "gpt" "" 60
                    sample_session = Ok (m, s')
    /\ user_table (database s') = [alice; bob]
    /\ message_table (database s') = [hello; reply; other; m].
Proof.
  do 2 eexists. split; [reflexivity|].
  destruct (orm_add_message_frame sample_session chat_a "user" "again"
              "content" None "chat" "gpt" "" 60 _ _ eq_refl)
    as [Hu [Hm _]].
  split; [exact Hu | exact Hm].
Defined.

(** ** Deleting, then reading *)

Lemma filter_none {A : Type} (p : A -> bool) (l : list A) :
  (forall x, In x l -> p x = false) -> List.filter p l = [].
Proof.
  induction l as [|x l IH]; simpl; intros H; [reflexivity|].
  rewrite (H x (or_introl eq_refl)). apply IH. auto.
Qed.

Lemma window_nil {A : Type} (lim off : option nat) :
  Query.window lim off (@nil A) = [].
Proof.
  unfold Query.window.
  destruct lim as [n|], off as [k|];
    rewrite ?skipn_nil, ?firstn_nil; reflexivity.
Qed.

Lemma session_get_gone {A : Type} (table : Database -> list A)
  (pk_of : A -> Z) (pk : Z) (d : Database) (n : nat) :
  in_int64 pk = true ->
  (forall r, In r (table d) -> pk_of r <> pk) ->
  session_get table pk_of pk (mkSession d d n)
  = Ok (None, mkSession d d n).
Proof.
  intros Hrange Hgone.
  rewrite session_get_run by (apply session_autoflush_clean; reflexivity).
  cbn [transaction]. rewrite find_by_key_missing; [now rewrite Hrange|].
  apply not_true_is_false. intros Hex.
  apply existsb_exists in Hex. destruct Hex as [r [Hr Heq]].
  apply Z.eqb_eq in Heq. exact (Hgone r Hr Heq).
Qed.

(** On a stored state satisfying the declared constraints,
    [orm_delete_user] on a stored User (its id a 64-bit integer) returns
    that User, after which [orm_get_user] on the user's id returns None
    and listing the user's Conversations (descending) returns the empty
    list, whatever the limit and offset. *)
Theorem orm_delete_user_then_read (s : Session) (user : User.t)
  (limit offset : option nat) :
  constraints_ok (transaction s) = true ->
  In user (user_table (transaction s)) ->
  in_int64 (User.id user) = true ->
  exists s',
    orm_delete_user user s = Ok (Some user, s')
    /\ orm_get_user (User.id user) s' = Ok (None, s')
    /\ orm_get_conversations user limit offset true s' = Ok ([], s').
Proof.
  intros Hok Hin Hrange.
  destruct (delete_user_row_tables (User.id user) _ Hok) as [Tu [Tc _]].
  eexists. split; [now apply orm_delete_user_stored|]. split.
  - unfold orm_get_user. apply session_get_gone; [assumption|].
    intros u Hu. apply Tu in Hu. tauto.
  - rewrite orm_get_conversations_run_desc. cbn [transaction].
    rewrite filter_none; [simpl; now rewrite window_nil|].
    intros c Hc. apply Tc in Hc. now apply Z.eqb_neq.
Qed.

Lemma orm_delete_user_then_read_witness :
  exists s',
    orm_delete_user alice sample_session = Ok (Some alice, s')
    /\ orm_get_user (User.id alice) s' = Ok (None, s')
    /\ orm_get_conversations alice (Some 5%nat) None true s' = Ok ([], s').
Proof.
  exact (orm_delete_user_then_read sample_session alice (Some 5%nat) None
           eq_refl (or_introl eq_refl) eq_refl).
Defined.

(** On a stored state satisfying the declared constraints,
    [orm_delete_conversation] on a stored Conversation (its id a 64-bit
    integer) returns None; afterwards [orm_get_conversation] on the id
    and [orm_get_last_message] return None and [orm_get_messages] returns
    the empty list, whatever the limit and offset. *)
Theorem orm_delete_conversation_then_read (s : Session)
  (conversation : Conversation.t) (limit offset : option nat) :
  constraints_ok (transaction s) = true ->
  In conversation (conversation_table (transaction s)) ->
  in_int64 (Conversation.id conversation) = true ->
  exists s',
    orm_delete_conversation conversation s = Ok (None, s')
    /\ orm_get_conversation (Conversation.id conversation) s' = Ok (None, s')
    /\ orm_get_last_message conversation s' = Ok (None, s')
    /\ orm_get_messages conversation limit offset None s' = Ok ([], s').
Proof.
  intros Hok Hin Hrange.
  destruct (delete_conversation_row_members (Conversation.id conversation)
              _ Hok) as [_ [Tc Tm]].
  assert (Hnone : List.filter
                    (fun m => Message.conversation_id m
                              =? Conversation.id conversation)
                    (message_table
                       (delete_conversation_row
                          (Conversation.id conversation) (transaction s)))
                  = []).
  { apply filter_none. intros m Hm. apply Tm in Hm. now apply Z.eqb_neq. }
  eexists. split; [now apply orm_delete_conversation_stored|].
  split; [|split].
  - unfold orm_get_conversation. apply session_get_gone; [assumption|].
    intros c Hc. apply Tc in Hc. tauto.
  - rewrite orm_get_last_message_run. cbn [transaction].
    now rewrite Hnone.
  - rewrite orm_get_messages_run_uncapped by reflexivity. cbn [transaction].
    rewrite Hnone. simpl. now rewrite window_nil.
Qed.

Lemma orm_delete_conversation_then_read_witness :
  exists s',
    orm_delete_conversation chat_a sample_session = Ok (None, s')
    /\ orm_get_conversation (Conversation.id chat_a) s' = Ok (None, s')
    /\ orm_get_messages chat_a None None None s' = Ok ([], s').
Proof.
  destruct (orm_delete_conversation_then_read sample_session chat_a None None
              eq_refl (or_introl eq_refl) eq_refl)
    as [s' [Hrun [Hget [_ Hmsgs]]]].
  exists s'. split; [exact Hrun|]. split; [exact Hget | exact Hmsgs].
Defined.

(** On a stored state satisfying the declared constraints,
    [orm_delete_message] on a stored Message (its id a 64-bit integer)
    returns None; afterwards [orm_get_message] on the id returns None,
    and the Message is the last one of its conversation no more. *)
Theorem orm_delete_message_then_read (s : Session) (message : Message.t) :
  constraints_ok (transaction s) = true ->
  In message (message_table (transaction s)) ->
  in_int64 (Message.id message) = true ->
  exists s',
    orm_delete_message message s = Ok (None, s')
    /\ orm_get_message (Message.id message) s' = Ok (None, s')
    /\ forall conversation last,
         orm_get_last_message conversation s' = Ok (Some last, s') ->
         Message.id last <> Message.id message.
Proof.
  intros Hok Hin Hrange.
  eexists. split; [now apply orm_delete_message_stored|]. split.
  - unfold orm_get_message. apply session_get_gone; [assumption|].
    intros m Hm. apply delete_message_row_members in Hm. tauto.
  - intros conversation last Hlast.
    rewrite orm_get_last_message_run in Hlast. cbn [transaction] in Hlast.
    inversion Hlast as [Hhd].
    destruct (sort_by _ _) as [|h rest] eqn:Hsort; [discriminate|].
    simpl in Hhd. inversion Hhd; subst h.
    assert (Hmem : In last (sort_by (desc Message.id)
                              (List.filter
                                 (fun m => Message.conversation_id m
                                           =? Conversation.id conversation)
                                 (message_table
                                    (delete_message_row (Message.id message)
                                                        (transaction s))))))
      by (rewrite Hsort; now left).
    apply sort_by_In, filter_In in Hmem. destruct Hmem as [Hmem _].
    apply delete_message_row_members in Hmem. tauto.
Qed.

Lemma orm_delete_message_then_read_witness :
  exists s',
    orm_delete_message hello sample_session = Ok (None, s')
    /\ orm_get_message (Message.id hello) s' = Ok (None, s').
Proof.
  destruct (orm_delete_message_then_read sample_session hello eq_refl
              (or_introl eq_refl) eq_refl)
    as [s' [Hrun [Hget _]]].
  exists s'. split; [exact Hrun | exact Hget].
Defined.

(** ** Editing *)

Lemma find_distinct_key {A : Type} (pk_of : A -> Z) (table : list A) (r : A) :
  distinctb Z.eqb (map pk_of table) = true ->
  In r table ->
  find (fun x => pk_of x =? pk_of r) table = Some r.
Proof.
  induction table as [|x table IH]; simpl; intros Hd Hin; [contradiction|].
  apply andb_true_iff in Hd. destruct Hd as [Hx Hd].
  destruct Hin as [->|Hin]; [now rewrite Z.eqb_refl|].
  destruct (Z.eqb_spec (pk_of x) (pk_of r)) as [Heq|_]; [|auto].
  exfalso. apply negb_true_iff in Hx.
  assert (existsb (Z.eqb (pk_of x)) (map pk_of table) = true).
  { apply existsb_exists. exists (pk_of r).
    split; [now apply in_map | now apply Z.eqb_eq]. }
  congruence.
Qed.

Lemma session_get_stored {A : Type} (table : Database -> list A)
  (pk_of : A -> Z) (d : Database) (n : nat) (r : A) :
  distinctb Z.eqb (map pk_of (table d)) = true ->
  In r (table d) ->
  session_get table pk_of (pk_of r) (mkSession d d n)
  = Ok (Some r, mkSession d d n).
Proof.
  intros Hpk Hin.
  rewrite session_get_run by (apply session_autoflush_clean; reflexivity).
  cbn [transaction]. now rewrite find_distinct_key.
Qed.




(** When [orm_edit_user], [orm_edit_conversation] or [orm_edit_message]
    on an entity the session holds returns an entity, fetching by that
    entity's id returns it, the rows of the same table with another id
    than the edited object's are still stored, and the two other tables
    are untouched. *)
Theorem orm_edit_then_get (s s' : Session) :
  (forall user kwargs r,
     In user (user_table (transaction s)) ->
     orm_edit_user user kwargs s = Ok (r, s') ->
     orm_get_user (User.id r) s' = Ok (Some r, s')
     /\ (forall u, In u (user_table (transaction s)) ->
                   User.id u <> User.id user ->
                   In u (user_table (database s')))
     /\ conversation_table (database s') = conversation_table (transaction s)
     /\ message_table (database s') = message_table (transaction s))
  /\ (forall conversation kwargs r,
        In conversation (conversation_table (transaction s)) ->
        orm_edit_conversation conversation kwargs s = Ok (r, s') ->
        orm_get_conversation (Conversation.id r) s' = Ok (Some r, s')
        /\ (forall c, In c (conversation_table (transaction s)) ->
                      Conversation.id c <> Conversation.id conversation ->
                      In c (conversation_table (database s')))
        /\ user_table (database s') = user_table (transaction s)
        /\ message_table (database s') = message_table (transaction s))
  /\ (forall message kwargs r,
        In message (message_table (transaction s)) ->
        orm_edit_message message kwargs s = Ok (r, s') ->
        orm_get_message (Message.id r) s' = Ok (Some r, s')
        /\ (forall m, In m (message_table (transaction s)) ->
                      Message.id m <> Message.id message ->
                      In m (message_table (database s')))
        /\ user_table (database s') = user_table (transaction s)
        /\ conversation_table (database s')
           = conversation_table (transaction s)).
Proof.
  split; [|split].
  - intros user kwargs r Hin Hrun.
    pose proof (orm_edit_user_held s user kwargs Hin) as E. cbv zeta in E.
    rewrite E in Hrun. destruct (forallb _ _); [|discriminate].
    destruct (constraints_ok _) eqn:Hok; [|discriminate].
    inversion Hrun; subst. cbn [database user_table conversation_table
                                      message_table].
    apply constraints_ok_split in Hok. destruct Hok as [[Hpk _] _].
    split; [|split; [|split; reflexivity]].
    + unfold orm_get_user.
      apply (session_get_stored user_table User.id); [exact Hpk|].
      cbn [user_table].
      apply (update_row_In User.id _
               (fun row => fold_left User.setattr kwargs row));
        [assumption | reflexivity].
    + intros u Hu Hne. now apply update_row_other.
  - intros conversation kwargs r Hin Hrun.
    pose proof (orm_edit_conversation_held s conversation kwargs Hin) as E.
    cbv zeta in E. rewrite E in Hrun.
    destruct (forallb _ _); [|discriminate].
    destruct (constraints_ok _) eqn:Hok; [|discriminate].
    inversion Hrun; subst. cbn [database user_table conversation_table
                                      message_table].
    apply constraints_ok_split in Hok. destruct Hok as [[_ [Hpk _]] _].
    split; [|split; [|split; reflexivity]].
    + unfold orm_get_conversation.
      apply (session_get_stored conversation_table Conversation.id);
        [exact Hpk|].
      cbn [conversation_table].
      apply (update_row_In Conversation.id _
               (fun row => fold_left Conversation.setattr kwargs row));
        [assumption | reflexivity].
    + intros c Hc Hne. now apply update_row_other.
  - intros message kwargs r Hin Hrun.
    destruct (existsb Message.names_message kwargs) eqn:Hkw.
    { unfold orm_edit_message in Hrun. rewrite Hkw in Hrun. discriminate. }
    pose proof (orm_edit_message_held s message kwargs Hkw Hin) as E.
    cbv zeta in E. rewrite E in Hrun.
    destruct (forallb _ _); [|discriminate].
    destruct (constraints_ok _) eqn:Hok; [|discriminate].
    inversion Hrun; subst. cbn [database user_table conversation_table
                                      message_table].
    apply constraints_ok_split in Hok. destruct Hok as [[_ [_ Hpk]] _].
    split; [|split; [|split; reflexivity]].
    + unfold orm_get_message.
      apply (session_get_stored message_table Message.id); [exact Hpk|].
      cbn [message_table].
      apply (update_row_In Message.id _
               (fun row => fold_left Message.setattr kwargs row));
        [assumption | reflexivity].
    + intros m Hm Hne. now apply update_row_other.
Qed.

Lemma orm_edit_then_get_witness :
  exists r s',
    orm_edit_user alice [User.kw_username "alicia"] sample_session
    = Ok (r, s')
    /\ orm_get_user (User.id r) s' = Ok (Some r, s')
    /\ User.username r = "alicia"%string.
Proof.
  do 2 eexists. split; [reflexivity|]. split; [|reflexivity].
  exact (proj1 (proj1 (orm_edit_then_get sample_session _)
                  alice [User.kw_username "alicia"] _ (or_introl eq_refl)
                  eq_refl)).
Defined.

(** An edit cannot leave a dangling reference.  On a stored state
    satisfying the declared constraints, [orm_edit_conversation] on a
    Conversation the session holds, with 64-bit integer values, whose
    updates give it a user_id that no stored User has raises
    IntegrityError; so does [orm_edit_message] on a Message the session
    holds, with updates that do not name [message], that give it a
    conversation_id no stored Conversation has. *)
Theorem orm_edit_unknown_parent (s : Session) :
  constraints_ok (transaction s) = true ->
  (forall conversation kwargs,
     In conversation (conversation_table (transaction s)) ->
     forallb Conversation.bindable kwargs = true ->
     has_user (transaction s)
       (Conversation.user_id
          (fold_left Conversation.setattr kwargs conversation)) = false ->
     orm_edit_conversation conversation kwargs s = Raise IntegrityError)
  /\ (forall message kwargs,
        In message (message_table (transaction s)) ->
        existsb Message.names_message kwargs = false ->
        forallb Message.bindable kwargs = true ->
        has_conversation (transaction s)
          (Message.conversation_id
             (fold_left Message.setattr kwargs message)) = false ->
        orm_edit_message message kwargs s = Raise IntegrityError).
Proof.
  intros _. split.
  - intros conversation kwargs Hin Hb Hmissing.
    pose proof (orm_edit_conversation_held s conversation kwargs Hin) as E.
    cbv zeta in E. rewrite E, Hb.
    rewrite constraints_ok_foreign_false; [reflexivity|].
    unfold foreign_keys_ok. cbn [conversation_table message_table].
    apply andb_false_iff. left. apply not_true_is_false. intros Hall.
    rewrite forallb_forall in Hall.
    specialize (Hall _ (update_row_In Conversation.id _
                          (fun row =>
                             fold_left Conversation.setattr kwargs row)
                          _ _ Hin eq_refl)).
    unfold has_user in *. cbn [user_table] in Hall. congruence.
  - intros message kwargs Hin Hkw Hb Hmissing.
    pose proof (orm_edit_message_held s message kwargs Hkw Hin) as E.
    cbv zeta in E. rewrite E, Hb.
    rewrite constraints_ok_foreign_false; [reflexivity|].
    unfold foreign_keys_ok. cbn [conversation_table message_table].
    apply andb_false_iff. right. apply not_true_is_false. intros Hall.
    rewrite forallb_forall in Hall.
    specialize (Hall _ (update_row_In Message.id _
                          (fun row => fold_left Message.setattr kwargs row)
                          _ _ Hin eq_refl)).
    unfold has_conversation in *. cbn [conversation_table] in Hall.
    congruence.
Qed.

Lemma orm_edit_unknown_parent_witness :
  orm_edit_conversation chat_a [Conversation.kw_user_id 7] sample_session
  = Raise IntegrityError
  /\ orm_edit_message hello [Message.kw_conversation_id 9] sample_session
     = Raise IntegrityError.
Proof.
  destruct (orm_edit_unknown_parent sample_session eq_refl) as [Hc Hm].
  split.
  - exact (Hc chat_a [Conversation.kw_user_id 7] (or_introl eq_refl)
             eq_refl eq_refl).
  - exact (Hm hello [Message.kw_conversation_id 9] (or_introl eq_refl)
             eq_refl eq_refl eq_refl).
Defined.



Lemma writes_commit_once_witness :
  exists s',
    orm_add_conversation alice None false 50 sample_session
    = Ok (Conversation.mk 3 1 None 50 50 false, s')
    /\ committed_once sample_session s'.
Proof.
  eexists. split; [reflexivity|].
  match goal with
  | |- committed_once _ ?s' =>
      destruct (writes_commit_once sample_session s') as [_ [Hadd _]]
  end.
  exact (Hadd alice None false 50 _ eq_refl).
Defined.

(** ** Orm *)

(** [object_as_dict] has one entry per mapped column, each column once and
    in declaration order, and it determines the object: assigning its
    entries with [setattr] to any object of the class yields the
    original. *)
Theorem object_as_dict_round_trip :
  (forall u v : User.t,
     map User.key (object_as_dict user_column_attrs User.getattr u)
     = user_column_attrs
     /\ NoDup user_column_attrs
     /\ fold_left User.setattr
          (object_as_dict user_column_attrs User.getattr u) v = u)
  /\ (forall c d : Conversation.t,
        map Conversation.key
            (object_as_dict conversation_column_attrs Conversation.getattr c)
        = conversation_column_attrs
        /\ NoDup conversation_column_attrs
        /\ fold_left Conversation.setattr
             (object_as_dict conversation_column_attrs Conversation.getattr c)
             d = c)
  /\ (forall m n : Message.t,
        map Message.key
            (object_as_dict message_column_attrs Message.getattr m)
        = message_column_attrs
        /\ NoDup message_column_attrs
        /\ fold_left Message.setattr
             (object_as_dict message_column_attrs Message.getattr m) n = m).
Proof.
  split; [|split]; intros x y; (split; [reflexivity|]);
    (split; [repeat constructor; simpl; intuition discriminate|]);
    destruct x, y; reflexivity.
Qed.

Lemma string_append_empty (a : string) : (a ++ "")%string = a.
Proof. induction a as [|ch a IH]; simpl; congruence. Qed.

Lemma string_prefix_append (a b : string) :
  String.prefix a (a ++ b)%string = true.
Proof.
  induction a as [|ch a IH]; simpl.
  - now destruct b.
  - destruct (Ascii.ascii_dec ch ch); [exact IH | contradiction].
Qed.

(** The URL given to [create_engine] always begins with the configured
    database string; it is that string followed by
    [?check_same_thread=False] when the string starts with [sqlite], and
    the string itself otherwise. *)
Theorem create_engine_url_appends (database : string) :
  String.prefix database (create_engine_url database) = true
  /\ create_engine_url database
     = if String.prefix "sqlite" database
       then (database ++ "?check_same_thread=False")%string
       else database.
Proof.
  unfold create_engine_url. split.
  - apply string_prefix_append.
  - destruct (String.prefix "sqlite" database);
      [reflexivity | apply string_append_empty].
Qed.
